(** * 3D Viewer: the model's load / normalize / transform pipeline

    A shallow embedding of [model.cpp] and [tranformation.cpp]
    (namespace [s21]): the OBJ parser, the normalizer, the three
    transformation strategies and the [Model] session that owns the
    buffers.

    Data: [double] is the kernel's binary64 float, [std::vector<double>]
    is [list float], [std::vector<int>] is [list Z], [std::string] is
    [string]; the files that can be opened are a finite map from paths to
    contents.  Vector accesses by index are written with list lookup and
    insert; an access outside the vector has no defined result in C++ and
    is [None] here. *)

From Stdlib Require Import ZArith ZifyNat Ascii String Floats.
From stdpp Require Import base option list strings gmap.

Local Open Scope Z_scope.

(** ** Enumerations of [model.h] and [tranformation.h] *)

Inductive error_list : Set :=
| kNoError
| kFileWrongExtension
| kFailedToOpen
| kIncorrectData.

#[global] Instance error_list_eq_dec : EqDecision error_list.
Proof. solve_decision. Defined.

(** The numeric value of an error code, as [GetError] returns it. *)
Definition error_value (e : error_list) : Z :=
  match e with
  | kNoError => 0
  | kFileWrongExtension => 1
  | kFailedToOpen => 2
  | kIncorrectData => 3
  end.

(** [transformation_t] names both the axes and the kinds of
    transformation, with the same three values.  The axis argument is an
    enumerator; the kind reaches [Model::Transform] as a plain [int]. *)
Inductive transformation_t : Set := kX | kY | kZ.

Definition axis_value (a : transformation_t) : nat :=
  match a with kX => 0%nat | kY => 1%nat | kZ => 2%nat end.

Definition kMove : Z := 0.
Definition kRotate : Z := 1.
Definition kScale : Z := 2.

(** ** The C library, as the code uses it

    [std::sscanf] converts numbers with the library's [strtod] and
    [strtol]; [RotateStrategy] calls [std::cos] and [std::sin].  They are
    not part of the repository: the development is stated over any
    implementation of them. *)

Class LibM := {
  cos : float → float;
  sin : float → float
}.

(** A conversion takes the input that starts at the first character that
    is not white space and returns the value read with the input left
    after it, or [None] on a matching failure. *)
Class LibC := {
  scan_lf : string → option (float * string);
  scan_d : string → option (Z * string)
}.

(** ** tranformation.cpp *)

Abbreviation vec := (list float).

(** The outcome of a loop over a vector: the vector it leaves, an access
    outside the vector, or not enough steps allowed. *)
Inductive outcome (A : Type) : Type :=
| Done (a : A)
| OutOfRange
| OutOfFuel.
Arguments Done {A} a.
Arguments OutOfRange {A}.
Arguments OutOfFuel {A}.

(** [for (size_t i = start; i < v.size(); i += 3) body(i)] *)
Fixpoint stride3 (body : nat → vec → option vec) (fuel i : nat) (v : vec)
  : outcome vec :=
  if decide (i < length v)%nat then
    match fuel with
    | O => OutOfFuel
    | S fuel' =>
        match body i v with
        | Some v' => stride3 body fuel' (i + 3) v'
        | None => OutOfRange
        end
    end
  else Done v.

(** [vertex_coord[i] += step] *)
Definition move_body (step : float) (i : nat) (v : vec) : option vec :=
  c ← v !! i; Some (<[i := (c + step)%float]> v).

Definition MoveStrategy_Transform (vertex_coord : vec) (step : float)
    (axis : transformation_t) : outcome vec :=
  stride3 (move_body step) (length vertex_coord) (axis_value axis) vertex_coord.

(** The body of [RotateAroundX_]: [i] is the position of [y]. *)
Definition rotate_x_body (cos_val sin_val : float) (i : nat) (v : vec)
  : option vec :=
  y ← v !! i;
  z ← v !! (i + 1)%nat;
  Some (<[(i + 1)%nat := (sin_val * y + cos_val * z)%float]>
          (<[i := (cos_val * y - sin_val * z)%float]> v)).

(** The body of [RotateAroundY_]: [i] is the position of [x]. *)
Definition rotate_y_body (cos_val sin_val : float) (i : nat) (v : vec)
  : option vec :=
  x ← v !! i;
  z ← v !! (i + 2)%nat;
  Some (<[(i + 2)%nat := ((- sin_val) * x + cos_val * z)%float]>
          (<[i := (cos_val * x + sin_val * z)%float]> v)).

(** The body of [RotateAroundZ_]: [i] is the position of [x]. *)
Definition rotate_z_body (cos_val sin_val : float) (i : nat) (v : vec)
  : option vec :=
  x ← v !! i;
  y ← v !! (i + 1)%nat;
  Some (<[(i + 1)%nat := ((- sin_val) * x + cos_val * y)%float]>
          (<[i := (cos_val * x + sin_val * y)%float]> v)).

Definition RotateAroundX_ (vertex_coord : vec) (cos_val sin_val : float)
  : outcome vec :=
  stride3 (rotate_x_body cos_val sin_val) (length vertex_coord) 1 vertex_coord.

Definition RotateAroundY_ (vertex_coord : vec) (cos_val sin_val : float)
  : outcome vec :=
  stride3 (rotate_y_body cos_val sin_val) (length vertex_coord) 0 vertex_coord.

Definition RotateAroundZ_ (vertex_coord : vec) (cos_val sin_val : float)
  : outcome vec :=
  stride3 (rotate_z_body cos_val sin_val) (length vertex_coord) 0 vertex_coord.

(** [M_PI] of <cmath>, and the constant of [RotateStrategy]. *)
Definition M_PI : float := 0x1.921fb54442d18p+1%float.
Definition kRadianToDegree : float := (M_PI / 180)%float.

Definition RotateStrategy_Transform `{libm : LibM} (vertex_coord : vec)
    (angle : float) (axis : transformation_t) : outcome vec :=
  if decide (length vertex_coord < 3)%nat then Done vertex_coord
  else
    let rad_angle := (angle * kRadianToDegree)%float in
    let cos_val := cos rad_angle in
    let sin_val := sin rad_angle in
    match axis with
    | kX => RotateAroundX_ vertex_coord cos_val sin_val
    | kY => RotateAroundY_ vertex_coord cos_val sin_val
    | kZ => RotateAroundZ_ vertex_coord cos_val sin_val
    end.

Definition ScaleStrategy_Transform (vertex_coord : vec) (scale : float)
    (_ : transformation_t) : outcome vec :=
  if (scale <=? 0)%float then Done vertex_coord
  else Done (map (λ coord, (coord * scale)%float) vertex_coord).

(** The strategy classes have no fields: an object is its class. *)
Inductive TransformationStrategy : Set :=
| MoveStrategy
| RotateStrategy
| ScaleStrategy.

Definition Strategy_Transform `{libm : LibM} (s : TransformationStrategy)
    (vertex_coord : vec) (value : float) (axis : transformation_t)
  : outcome vec :=
  match s with
  | MoveStrategy => MoveStrategy_Transform vertex_coord value axis
  | RotateStrategy => RotateStrategy_Transform vertex_coord value axis
  | ScaleStrategy => ScaleStrategy_Transform vertex_coord value axis
  end.

(** [class Strategy]: the owned pointer, null until a strategy is set. *)
Record Strategy : Set := { strategy_ : option TransformationStrategy }.

Definition SetStrategy (_ : Strategy) (s : TransformationStrategy) : Strategy :=
  {| strategy_ := Some s |}.

Definition PerformTransformation `{libm : LibM} (ctx : Strategy) (vertex_coord : vec)
    (value : float) (axis : transformation_t) : outcome vec :=
  match strategy_ ctx with
  | Some s => Strategy_Transform s vertex_coord value axis
  | None => Done vertex_coord
  end.

(** ** model.cpp *)

Record Model : Type := {
  filename_ : string;
  vertex_coord_ : vec;
  vertex_index_ : list Z;
  error_code_ : error_list;
  transformation_model_ : Strategy
}.

Definition kNormalizationThreshold : float := 10%float.
Definition kMinObjFilenameLength : nat := 5.

Definition set_error (e : error_list) (m : Model) : Model :=
  {| filename_ := filename_ m;
     vertex_coord_ := vertex_coord_ m;
     vertex_index_ := vertex_index_ m;
     error_code_ := e;
     transformation_model_ := transformation_model_ m |}.

Definition set_coord (v : vec) (m : Model) : Model :=
  {| filename_ := filename_ m;
     vertex_coord_ := v;
     vertex_index_ := vertex_index_ m;
     error_code_ := error_code_ m;
     transformation_model_ := transformation_model_ m |}.

Definition set_index (e : list Z) (m : Model) : Model :=
  {| filename_ := filename_ m;
     vertex_coord_ := vertex_coord_ m;
     vertex_index_ := e;
     error_code_ := error_code_ m;
     transformation_model_ := transformation_model_ m |}.

Definition GetError (m : Model) : Z := error_value (error_code_ m).
Definition GetVertexCount (m : Model) : nat := (length (vertex_coord_ m) / 3)%nat.
Definition GetEdgeCount (m : Model) : nat := (length (vertex_index_ m) / 2)%nat.

(** *** Streams and [sscanf] *)

(** [isspace] in the "C" locale: space, and the characters 9 to 13. *)
Definition isspace (c : ascii) : bool :=
  let n := nat_of_ascii c in
  bool_decide (n = 32 ∨ 9 ≤ n ≤ 13)%nat.

Fixpoint skip_ws (s : string) : string :=
  match s with
  | String c s' => if isspace c then skip_ws s' else s
  | EmptyString => EmptyString
  end.

(** [s.c_str()] as a C function reads it: up to the first null character. *)
Fixpoint c_str (s : string) : string :=
  match s with
  | String c s' => if decide (c = "000"%char) then EmptyString else String c (c_str s')
  | EmptyString => EmptyString
  end.

(** [std::getline(in, line, delim)]: the characters up to the next
    [delim], which is consumed with them; it fails when the stream is at
    its end and nothing was extracted. *)
Fixpoint getline (delim : ascii) (s : string) : option (string * string) :=
  match s with
  | EmptyString => None
  | String c s' =>
      if decide (c = delim) then Some (EmptyString, s')
      else match getline delim s' with
           | Some (l, r) => Some (String c l, r)
           | None => Some (String c EmptyString, EmptyString)
           end
  end.

(** A stream read only through [getline]: the lines it will deliver. *)
Fixpoint getlines (delim : ascii) (s : string) : list string :=
  match s with
  | EmptyString => []
  | String c s' =>
      if decide (c = delim) then EmptyString :: getlines delim s'
      else match getlines delim s' with
           | l :: ls => String c l :: ls
           | [] => [String c EmptyString]
           end
  end.

(** [std::string(line.begin() + 2, line.end())] *)
Definition drop2 (line : string) : string :=
  match line with
  | String _ (String _ s) => s
  | _ => EmptyString
  end.

(** The maximum search of [Normalize_]. *)
Definition max_abs_step (max_abs_value coord : float) : float :=
  let abs_coord := abs coord in
  if (max_abs_value <? abs_coord)%float then abs_coord else max_abs_value.

(** The value of [max_abs_value] when the loop of [Normalize_] ends. *)
Definition max_abs (v : vec) : float := foldl max_abs_step 0%float v.

Definition Normalize_ (m : Model) : Model :=
  match vertex_coord_ m with
  | [] => m
  | _ =>
      let max_abs_value := max_abs (vertex_coord_ m) in
      if (kNormalizationThreshold <? max_abs_value)%float then
        let scale_factor := (1 / max_abs_value)%float in
        set_coord (map (λ coord, (coord * scale_factor)%float) (vertex_coord_ m)) m
      else m
  end.

Section Parsing.
Context `{libc : LibC}.

(** [sscanf(s, "%c %lf %lf %lf", &dummy, &x, &y, &z)] on the current
    values of the four variables: the returned count ([-1] is [EOF])
    and their values afterwards.  [%c] takes one character, the space
    of the format and every [%lf] skip white space. *)
Definition sscanf_c_lf_lf_lf (s : string) (dummy : ascii) (x y z : float)
  : Z * (ascii * float * float * float) :=
  match s with
  | EmptyString => (-1, (dummy, x, y, z))
  | String c s0 =>
      match scan_lf (skip_ws (skip_ws s0)) with
      | None => (1, (c, x, y, z))
      | Some (x', s1) =>
          match scan_lf (skip_ws s1) with
          | None => (2, (c, x', y, z))
          | Some (y', s2) =>
              match scan_lf (skip_ws s2) with
              | None => (3, (c, x', y', z))
              | Some (z', _) => (4, (c, x', y', z'))
              end
          end
      end
  end.

(** [sscanf(s, "%d", &index)] *)
Definition sscanf_d (s : string) (index : Z) : Z * Z :=
  match skip_ws s with
  | EmptyString => (-1, index)
  | s0 => match scan_d s0 with
          | Some (n, _) => (1, n)
          | None => (0, index)
          end
  end.

Definition VertexParser_ (line : string) (m : Model) : Model :=
  let '(parsed, (dummy, x, y, z)) :=
    sscanf_c_lf_lf_lf (c_str line) "000"%char 0%float 0%float 0%float in
  if decide (parsed = 4 ∧ dummy = "v"%char) then
    set_coord (vertex_coord_ m ++ [x; y; z]) m
  else set_error kIncorrectData m.

(** The body of the token loop of [EdgesParser_]. *)
Definition face_token (face_indices : list Z) (token : string) : list Z :=
  if decide (token = EmptyString) then face_indices
  else
    let '(ret, index) := sscanf_d (c_str token) 0 in
    if decide (ret = 1 ∧ index > 0) then face_indices ++ [index - 1]
    else face_indices.

(** The body of the edge loop of [EdgesParser_].  Both positions are
    inside [face_indices]: [i] is below its size and [next] is a
    remainder by its size. *)
Definition face_edge (face_indices : list Z) (vertex_index : list Z)
    (i : nat) : list Z :=
  let next := ((i + 1) mod length face_indices)%nat in
  vertex_index ++ [face_indices !!! i] ++ [face_indices !!! next].

Definition EdgesParser_ (line : string) (m : Model) : Model :=
  let face_indices := foldl face_token [] (getlines " "%char line) in
  if decide (2 ≤ length face_indices)%nat then
    set_index
      (foldl (face_edge face_indices) (vertex_index_ m)
             (seq 0 (length face_indices))) m
  else m.

(** The body of the line loop of [Parser]. *)
Definition parse_line (line : string) (m : Model) : Model :=
  match line with
  | EmptyString => m
  | String c0 EmptyString => m
  | String c0 (String c1 _) =>
      if decide (c0 = "#"%char) then m
      else if decide (c0 = "v"%char ∧ c1 = " "%char) then VertexParser_ line m
      else if decide (c0 = "f"%char ∧ c1 = " "%char) then EdgesParser_ (drop2 line) m
      else m
  end.

(** [while (error_code_ == kNoError && std::getline(file, line))]: the
    model and the lines left in the stream when the loop ends. *)
Fixpoint parse_lines (m : Model) (file : list string) : Model * list string :=
  match file with
  | [] => (m, [])
  | line :: file' =>
      if decide (error_code_ m = kNoError) then parse_lines (parse_line line m) file'
      else (m, file)
  end.

(** The files that can be opened for reading, with their contents. *)
Definition Parser (fs : gmap string string) (m : Model) : Model :=
  if decide (error_code_ m = kNoError) then
    match fs !! filename_ m with
    | None => set_error kFailedToOpen m
    | Some content =>
        let m' := (parse_lines m (getlines "010"%char content)).1 in
        if decide (error_code_ m' = kNoError) then Normalize_ m' else m'
    end
  else m.
End Parsing.

Definition ClearData_ (m : Model) : Model :=
  {| filename_ := filename_ m;
     vertex_coord_ := [];
     vertex_index_ := [];
     error_code_ := kNoError;
     transformation_model_ := transformation_model_ m |}.

Definition IsValidObjExtension_ (filename : string) : bool :=
  if decide (String.length filename < kMinObjFilenameLength)%nat then false
  else
    bool_decide (4 ≤ String.length filename)%nat
    && bool_decide (substring (String.length filename - 4) 4 filename = ".obj"%string).

Definition SetFileName (file_name : string) (m : Model) : Model :=
  let m := ClearData_ m in
  if IsValidObjExtension_ file_name then
    {| filename_ := file_name;
       vertex_coord_ := vertex_coord_ m;
       vertex_index_ := vertex_index_ m;
       error_code_ := kNoError;
       transformation_model_ := transformation_model_ m |}
  else set_error kFileWrongExtension m.

Definition Transform `{libm : LibM} (strategy_type : Z) (value : float)
    (axis : transformation_t) (m : Model) : outcome Model :=
  match vertex_coord_ m with
  | [] => Done m
  | _ =>
      let chosen :=
        match strategy_type with
        | 0 => Some MoveStrategy
        | 1 => Some RotateStrategy
        | 2 => Some ScaleStrategy
        | _ => None
        end in
      match chosen with
      | None => Done m
      | Some s =>
          let ctx := SetStrategy (transformation_model_ m) s in
          match PerformTransformation ctx (vertex_coord_ m) value axis with
          | Done v =>
              Done {| filename_ := filename_ m;
                      vertex_coord_ := v;
                      vertex_index_ := vertex_index_ m;
                      error_code_ := error_code_ m;
                      transformation_model_ := ctx |}
          | OutOfRange => OutOfRange
          | OutOfFuel => OutOfFuel
          end
      end
  end.

(** A model as the program creates it. *)
Definition initial_model : Model :=
  {| filename_ := EmptyString;
     vertex_coord_ := [];
     vertex_index_ := [];
     error_code_ := kNoError;
     transformation_model_ := {| strategy_ := None |} |}.

(** ** A C library for decimal numerals

    The conversions of [sscanf] on the numerals that OBJ files contain:
    an optional sign, decimal digits, and for [%lf] an optional fraction
    and an optional exponent, rounded to the nearest binary64 value (ties
    to even).  The instance covers plain decimal numerals only: it does
    not read [inf], [nan] or hexadecimal numerals, which [strtod]
    accepts; it stops before an exponent that has no digits; and an
    [int] numeral that does not fit 32 bits keeps its low 32 bits, where
    glibc saturates.  It serves the examples, on plain decimal numerals
    of small size; the theorems are stated for every library. *)

Definition digit_of (c : ascii) : option Z :=
  let n := Z.of_nat (nat_of_ascii c) in
  if decide (48 ≤ n ≤ 57) then Some (n - 48) else None.

Fixpoint read_digits (s : string) : list Z * string :=
  match s with
  | String c s' =>
      match digit_of c with
      | Some d => let '(ds, r) := read_digits s' in (d :: ds, r)
      | None => ([], s)
      end
  | EmptyString => ([], EmptyString)
  end.

Definition Z_of_digits (ds : list Z) : Z := foldl (λ a d, 10 * a + d) 0 ds.

Definition read_sign (s : string) : bool * string :=
  match s with
  | String "-" s' => (true, s')
  | String "+" s' => (false, s')
  | _ => (false, s)
  end.

Definition to_int (n : Z) : Z := (n + 2 ^ 31) mod 2 ^ 32 - 2 ^ 31.

Definition decimal_scan_d (s : string) : option (Z * string) :=
  let '(neg, s1) := read_sign s in
  let '(ds, r) := read_digits s1 in
  match ds with
  | [] => None
  | _ => Some (to_int (if neg then - Z_of_digits ds else Z_of_digits ds), r)
  end.

(** The exponent part, when one follows: its value and the input after it. *)
Definition read_exponent (s : string) : Z * string :=
  match s with
  | String c s' =>
      if decide (c = "e"%char ∨ c = "E"%char) then
        let '(neg, s1) := read_sign s' in
        let '(ds, r) := read_digits s1 in
        match ds with
        | [] => (0, s)
        | _ => (if neg then - Z_of_digits ds else Z_of_digits ds, r)
        end
      else (0, s)
  | EmptyString => (0, s)
  end.

(** [(-1)^neg * m * 10^e] rounded to binary64. *)
Definition round_decimal (neg : bool) (m e : Z) : float :=
  match m with
  | Zpos p =>
      match e with
      | Zneg q =>
          SF2Prim (SFdiv prec emax (S754_finite neg p 0)
                         (S754_finite false (10 ^ q)%positive 0))
      | _ =>
          let n := m * 10 ^ e in
          SF2Prim (binary_normalize prec emax (if neg then - n else n) 0 neg)
      end
  | _ => if neg then (-0)%float else 0%float
  end.

Definition decimal_scan_lf (s : string) : option (float * string) :=
  let '(neg, s1) := read_sign s in
  let '(ip, r1) := read_digits s1 in
  let '(fp, r2) :=
    match r1 with
    | String "." r => read_digits r
    | _ => ([], r1)
    end in
  match ip ++ fp with
  | [] => None
  | ds =>
      let '(e, r3) := read_exponent r2 in
      Some (round_decimal neg (Z_of_digits ds) (e - Z.of_nat (length fp)), r3)
  end.

#[global] Instance decimal_libc : LibC :=
  {| scan_lf := decimal_scan_lf; scan_d := decimal_scan_d |}.

(** ** Definitions that follow the specification's words *)

(** "ends in the literal [.obj]" *)
Definition ends_with (suffix s : string) : Prop := ∃ p, s = p +:+ suffix.

(** The extension validation of the specification: the path ends in
    [.obj] and has total length at least 5. *)
Definition spec_valid_path (path : string) : Prop :=
  (5 ≤ String.length path)%nat ∧ ends_with ".obj" path.

(** "split on spaces": the pieces between the delimiters. *)
Fixpoint split (delim : ascii) (s : string) : list string :=
  match s with
  | EmptyString => [EmptyString]
  | String c s' =>
      if decide (c = delim) then EmptyString :: split delim s'
      else match split delim s' with
           | t :: ts => String c t :: ts
           | [] => [String c EmptyString]
           end
  end.

(** A token is valid when it parses as an integer greater than 0; it
    then denotes the zero-based index. *)
Definition valid_token `{libc : LibC} (token : string) : option Z :=
  let r := sscanf_d (c_str token) 0 in
  if decide (r.1 = 1) then
    if decide (r.2 > 0) then Some (r.2 - 1) else None
  else None.

(** The index list of a face line: its tokens, the empty ones ignored,
    the invalid ones discarded. *)
Definition spec_face_indices `{libc : LibC} (line : string) : list Z :=
  omap valid_token (filter (λ t, t ≠ EmptyString) (split " "%char line)).

(** One edge per consecutive pair of the list taken as a cycle, the
    endpoints of each edge one after the other. *)
Definition cyclic_edges (l : list Z) : list Z :=
  flat_map (λ e : Z * Z, [e.1; e.2]) (zip l (rotate 1 l)).

(** Three numbers read one after the other, each after optional white
    space; what follows the third is not looked at. *)
Definition three_numbers `{libc : LibC} (s : string) : option (float * float * float) :=
  '(x, r1) ← scan_lf (skip_ws s);
  '(y, r2) ← scan_lf (skip_ws r1);
  '(z, _) ← scan_lf (skip_ws r2);
  Some (x, y, z).

Definition not_nan (x : float) : Prop := Prim2SF x ≠ S754_nan.

(** ** Loading a source text

    The examples load one file, [m.obj], into a fresh model, with the
    decimal C library. *)

Definition nl : string := String "010"%char EmptyString.

Definition load (content : string) : Model :=
  Parser (libc := decimal_libc) {[ "m.obj"%string := content ]}
         (SetFileName "m.obj" initial_model).

(** The sources of the examples. *)
Definition quad_source : string :=
  "v 0 0 0" +:+ nl +:+ "v 1 0 0" +:+ nl +:+ "v 1 1 0" +:+ nl
  +:+ "v 0 1 0" +:+ nl +:+ "f 1 2 3 4" +:+ nl.

Definition dangling_source : string :=
  "v 0 0 0" +:+ nl +:+ "f 1 2" +:+ nl.

Definition trailing_source : string := "v 1 2 3 4" +:+ nl.


(** ** Vertices

    The buffer read as vertices, and the rotations of the specification
    on one vertex, with the products and sums in the order of the code. *)

Definition vertex : Type := float * float * float.

Definition coords_of (vs : list vertex) : vec :=
  flat_map (λ v : vertex, [v.1.1; v.1.2; v.2]) vs.

Definition rot_x (c s : float) (v : vertex) : vertex :=
  (v.1.1, (c * v.1.2 - s * v.2)%float, (s * v.1.2 + c * v.2)%float).

Definition rot_y (c s : float) (v : vertex) : vertex :=
  ((c * v.1.1 + s * v.2)%float, v.1.2, ((- s) * v.1.1 + c * v.2)%float).

Definition rot_z (c s : float) (v : vertex) : vertex :=
  ((c * v.1.1 + s * v.1.2)%float, ((- s) * v.1.1 + c * v.1.2)%float, v.2).

(** A math library known at one argument, the binary64 value nearest to
    pi / 2, where it returns the correctly rounded cosine and sine; at
    any other argument it returns the values at 0. *)
Definition quarter_turn : float := 0x1.921fb54442d18p+0%float.
Definition cos_quarter_turn : float := 0x1.1a62633145c07p-54%float.

Definition table_libm : LibM :=
  {| cos x := if (x =? quarter_turn)%float then cos_quarter_turn else 1%float;
     sin x := if (x =? quarter_turn)%float then 1%float else 0%float |}.

(** The tolerance 1e-10 of the rotation tests, as a binary64 value. *)
Definition tolerance : float := 0x1.b7cdfd9d7bdbbp-34%float.

(** [|a - b| <= tolerance], computed as the tests compute it. *)
Definition near (a b : float) : Prop :=
  (abs (a - b) <=? tolerance)%float = true.

(** The source of the repository's test for incorrect data. *)
Definition broken_source : string :=
  "v invalid data" +:+ nl +:+ "f abc def" +:+ nl.

(** ** The transformations on the whole buffer *)

(** The coordinate at position [j] belongs to the axis [j mod 3]: a move
    along an axis adds the step to the coordinates of that axis. *)
Definition move_coords (step : float) (axis : nat) (v : vec) : vec :=
  imap (λ j coord, if decide (j mod 3 = axis)%nat
                   then (coord + step)%float else coord) v.

(** A buffer of whole vertices. *)
Definition whole (v : vec) : Prop := (length v mod 3 = 0)%nat.

(** ** What a line contributes to the buffers *)

(** The coordinates that a line appends: the three numbers of a vertex
    line on which they can be read. *)
Definition line_coords `{libc : LibC} (line : string) : vec :=
  match line with
  | String c0 (String c1 rest) =>
      if decide (c0 = "v"%char ∧ c1 = " "%char) then
        match three_numbers (c_str rest) with
        | Some (x, y, z) => [x; y; z]
        | None => []
        end
      else []
  | _ => []
  end.

(** The entries that a line appends to the edge sequence: the cyclic
    edges of a face line with at least two valid indices. *)
Definition line_edges `{libc : LibC} (line : string) : list Z :=
  match line with
  | String c0 (String c1 rest) =>
      if decide (c0 = "f"%char ∧ c1 = " "%char) then
        if decide (2 ≤ length (spec_face_indices rest))%nat
        then cyclic_edges (spec_face_indices rest) else []
      else []
  | _ => []
  end.

(** A vertex line on which three numbers cannot be read. *)
Definition bad_vertex_line `{libc : LibC} (line : string) : Prop :=
  ∃ rest, line = String "v" (String " " rest)
          ∧ three_numbers (c_str rest) = None.

(** A line that is neither a vertex line nor a face line: an empty line,
    a comment, a line of another kind ([vn], [vt], [g], ...). *)
Definition ignored_line (line : string) : Prop :=
  ∀ rest, line ≠ String "v" (String " " rest)
          ∧ line ≠ String "f" (String " " rest).

(** [Normalize_] on the coordinates alone. *)
Definition normalize_coords (v : vec) : vec :=
  match v with
  | [] => []
  | _ =>
      if (kNormalizationThreshold <? max_abs v)%float
      then map (λ coord, (coord * (1 / max_abs v))%float) v
      else v
  end.

(** The model [m] with the buffers of [d] appended to its own, and the
    error code of [d]. *)
Definition append_model (m d : Model) : Model :=
  {| filename_ := filename_ m;
     vertex_coord_ := vertex_coord_ m ++ vertex_coord_ d;
     vertex_index_ := vertex_index_ m ++ vertex_index_ d;
     error_code_ := error_code_ d;
     transformation_model_ := transformation_model_ m |}.

(** A source whose third line cannot be parsed, after a vertex far from
    the origin and a face. *)
Definition partial_source : string :=
  "v 100 0 0" +:+ nl +:+ "f 1 1" +:+ nl +:+ "v x" +:+ nl
  +:+ "v 1 1 1" +:+ nl.

(** "its first two characters are [v] followed by a space" *)
Definition is_vertex_line (line : string) : bool :=
  match line with
  | String c0 (String c1 _) => bool_decide (c0 = "v"%char ∧ c1 = " "%char)
  | _ => false
  end.

(** A text that is empty or ends with a newline: the next character
    starts a line. *)
Definition at_line_start (s : string) : Prop :=
  s = EmptyString ∨ ∃ s', s = s' +:+ nl.

(** A string without the character [c]. *)
Fixpoint free_of (c : ascii) (s : string) : Prop :=
  match s with
  | EmptyString => True
  | String c' s' => c' ≠ c ∧ free_of c s'
  end.

(** ** controller.cpp

    A signal emitted by the controller is the value it returns here. *)

Inductive signal : Type :=
| ModelLoaded (vertex_index : list Z) (vertex_coord : vec) (filename : string)
              (vertex_count edge_count : Z)
| ModelLoadError (error_message : string)
| ModelTransformed (vertex_index : list Z) (vertex_coord : vec).

Definition GetErrorMessage_ (error_code : Z) : string :=
  match error_code with
  | 1 => "Неверное расширение файла. Ожидается .obj"
  | 2 => "Не удалось открыть файл"
  | 3 => "Некорректные данные в файле"
  | _ => "Неизвестная ошибка"
  end.

(** The two counts are [int]s initialized from [size_t] quotients. *)
Definition EmitModelData_ (m : Model) (filename : string) : signal :=
  let vertex_count := to_int (Z.of_nat (length (vertex_coord_ m) / 3)) in
  let edge_count := to_int (Z.of_nat (length (vertex_index_ m) / 2)) in
  ModelLoaded (vertex_index_ m) (vertex_coord_ m) filename
              vertex_count edge_count.

Section Controller.
Context `{libc : LibC}.

(** [QFileInfo(file_path).fileName()], of the Qt library. *)
Variable fileName : string → string.

Definition LoadModel (fs : gmap string string) (file_path : string)
    (m : Model) : Model * signal :=
  let m := SetFileName file_path m in
  let m := Parser fs m in
  let error_code := GetError m in
  if decide (error_code ≠ 0) then
    (m, ModelLoadError (GetErrorMessage_ error_code))
  else (m, EmitModelData_ m (fileName file_path)).
End Controller.

(** A source with a coordinate too large for a [double]. *)
Definition overflow_source : string := "v 1e999 1 2" +:+ nl.

(** A move on one vertex. *)
Definition move_vertex (step : float) (axis : nat) (v : vertex) : vertex :=
  (if decide (axis = 0)%nat then (v.1.1 + step)%float else v.1.1,
   if decide (axis = 1)%nat then (v.1.2 + step)%float else v.1.2,
   if decide (axis = 2)%nat then (v.2 + step)%float else v.2).

(** The rotation of the specification around an axis, on one vertex. *)
Definition rot_axis (axis : transformation_t) (c s : float) : vertex → vertex :=
  match axis with
  | kX => rot_x c s
  | kY => rot_y c s
  | kZ => rot_z c s
  end.

(** ** The view: the edge loop of [OpenGLWidget::paintGL]

    [View::HandleModelLoaded_] copies the two buffers of the
    [ModelLoaded] signal and passes them, with their sizes, to
    [OpenGLWidget::SetModelData]; the next [paintGL] draws one line for
    each pair of entries of the edge sequence. *)

(** The arguments of one [glVertex3d] call: [vertex_coord_[idx]],
    [vertex_coord_[idx + 1]] and [vertex_coord_[idx + 2]]; [None] when
    one of the three reads is outside the buffer. *)
Definition glVertex3d_reads (vertex_coord : vec) (idx : Z) : option vertex :=
  if decide (0 ≤ idx) then
    match vertex_coord !! Z.to_nat idx,
          vertex_coord !! Z.to_nat (idx + 1),
          vertex_coord !! Z.to_nat (idx + 2) with
    | Some x, Some y, Some z => Some (x, y, z)
    | _, _, _ => None
    end
  else None.

(** [for (int i = 0; i < count_vertex_index_; i += 2)] with
    [idx1 = vertex_index_[i] * 3] and [idx2 = vertex_index_[i + 1] * 3]:
    the lines drawn, or [None] when a read is outside [vertex_index_] or
    outside [vertex_coord_]. *)
Fixpoint paintGL_lines (vertex_coord : vec) (vertex_index : list Z)
  : option (list (vertex * vertex)) :=
  match vertex_index with
  | [] => Some []
  | [_] => None
  | i1 :: i2 :: rest =>
      match glVertex3d_reads vertex_coord (i1 * 3),
            glVertex3d_reads vertex_coord (i2 * 3),
            paintGL_lines vertex_coord rest with
      | Some p1, Some p2, Some lines => Some ((p1, p2) :: lines)
      | _, _, _ => None
      end
  end.

(** * Properties *)

(** ** Strings *)

Lemma substring_all (s : string) : substring 0 (String.length s) s = s.
Proof. induction s as [|c s IH]; simpl; [done | by rewrite IH]. Qed.

Lemma substring_append_r (p q : string) :
  substring (String.length p) (String.length q) (p +:+ q) = q.
Proof. induction p as [|c p IH]; simpl; [apply substring_all | exact IH]. Qed.

Lemma substring_split (s : string) (n k : nat) :
  (n + k = String.length s)%nat → s = substring 0 n s +:+ substring n k s.
Proof.
  revert n k. induction s as [|c s IH]; intros n k Hlen; simpl in Hlen.
  - assert (n = 0%nat) as -> by lia. assert (k = 0%nat) as -> by lia. done.
  - destruct n as [|n]; simpl.
    + assert (k = S (String.length s)) as -> by lia.
      simpl. by rewrite substring_all.
    + change (String c s = String c (substring 0 n s +:+ substring n k s)).
      f_equal. apply IH. lia.
Qed.

Lemma append_length (p q : string) :
  String.length (p +:+ q) = (String.length p + String.length q)%nat.
Proof. induction p as [|c p IH]; simpl; [done | by rewrite IH]. Qed.

Lemma IsValidObjExtension_spec (path : string) :
  IsValidObjExtension_ path = true ↔ spec_valid_path path.
Proof.
  unfold IsValidObjExtension_, spec_valid_path, ends_with, kMinObjFilenameLength.
  destruct (decide (String.length path < 5)%nat) as [Hlt|Hge].
  - split; [done | lia].
  - rewrite andb_true_iff, !bool_decide_eq_true. split.
    + intros [_ Hsub]. split; [lia|].
      exists (substring 0 (String.length path - 4) path).
      rewrite <- Hsub. apply substring_split. lia.
    + intros [_ [p ->]]. split.
      * rewrite append_length. simpl. lia.
      * rewrite append_length.
        replace (String.length p + String.length ".obj" - 4)%nat
          with (String.length p) by (simpl; lia).
        apply (substring_append_r p ".obj").
Qed.

(** ** The session: [SetFileName], [Parser] and [Transform] *)

Lemma SetFileName_fields (path : string) (m : Model) :
  vertex_coord_ (SetFileName path m) = []
  ∧ vertex_index_ (SetFileName path m) = []
  ∧ (spec_valid_path path →
       error_code_ (SetFileName path m) = kNoError
       ∧ filename_ (SetFileName path m) = path)
  ∧ (¬ spec_valid_path path →
       error_code_ (SetFileName path m) = kFileWrongExtension
       ∧ filename_ (SetFileName path m) = filename_ m).
Proof.
  unfold SetFileName.
  destruct (IsValidObjExtension_ path) eqn:Hv; simpl.
  - apply IsValidObjExtension_spec in Hv. tauto.
  - assert (¬ spec_valid_path path) as Hn.
    { rewrite <- IsValidObjExtension_spec. congruence. }
    tauto.
Qed.

(** C7: [SetFileName] empties both buffers whatever the state was; a
    path of length at least 5 that ends in [.obj] is stored with
    [kNoError]; any other path sets [kFileWrongExtension] and is not
    stored (the file name kept is the previous one).  The suffix is
    compared character by character: [a.OBJ] is rejected, and so is
    [.obj] alone, which is too short. *)
Theorem C7_set_file_name (path : string) (m : Model) :
  vertex_coord_ (SetFileName path m) = []
  ∧ vertex_index_ (SetFileName path m) = []
  ∧ (spec_valid_path path →
       error_code_ (SetFileName path m) = kNoError
       ∧ filename_ (SetFileName path m) = path)
  ∧ (¬ spec_valid_path path →
       error_code_ (SetFileName path m) = kFileWrongExtension
       ∧ filename_ (SetFileName path m) = filename_ m)
  ∧ error_code_ (SetFileName "a.obj" m) = kNoError
  ∧ error_code_ (SetFileName "a.OBJ" m) = kFileWrongExtension
  ∧ error_code_ (SetFileName ".obj" m) = kFileWrongExtension
  ∧ error_code_ (SetFileName "test.txt" m) = kFileWrongExtension.
Proof.
  destruct (SetFileName_fields path m) as (Hc & Hi & Hok & Hbad).
  by split_and!.
Qed.

(** C10: a [strategy_type] other than 0, 1 and 2 makes [Transform]
    return at once: the model, with its coordinates, edges and error
    code, is the one it was given, and nothing is signalled. *)
Theorem C10_transform_unknown_kind `{libm : LibM} (strategy_type : Z)
    (value : float) (axis : transformation_t) (m : Model) :
  strategy_type ≠ kMove → strategy_type ≠ kRotate → strategy_type ≠ kScale →
  Transform strategy_type value axis m = Done m.
Proof.
  unfold kMove, kRotate, kScale, Transform. intros H0 H1 H2.
  destruct (vertex_coord_ m); [done|].
  destruct strategy_type as [|p|p]; [done| |done].
  destruct p as [[| |]|[| |]|]; done.
Qed.

(** ** Order of binary64 values *)

Section FloatOrder.
Local Open Scope float_scope.

Local Ltac cmp_cases :=
  repeat match goal with
    | b : bool |- _ => destruct b
    end;
  simpl in *;
  change (Pos.compare_cont Eq) with Pos.compare in *;
  repeat match goal with
    | H : context [Z.compare ?a ?b] |- _ => destruct (Z.compare_spec a b)
    | |- context [Z.compare ?a ?b] => destruct (Z.compare_spec a b)
    | H : context [Pos.compare ?a ?b] |- _ => destruct (Pos.compare_spec a b)
    | |- context [Pos.compare ?a ?b] => destruct (Pos.compare_spec a b)
    end;
  simpl in *; try congruence; try lia.

Lemma SFcompare_lt_trans (f1 f2 f3 : spec_float) :
  SFcompare f1 f2 = Some Lt → SFcompare f2 f3 = Some Lt →
  SFcompare f1 f3 = Some Lt.
Proof. destruct f1, f2, f3; simpl; intros H1 H2; cmp_cases. Qed.

Lemma SFcompare_lt_asym (f1 f2 : spec_float) :
  SFcompare f1 f2 = Some Lt → SFcompare f2 f1 = Some Gt.
Proof. destruct f1, f2; simpl; intros H1; cmp_cases. Qed.

(** Below a bound that is not a NaN, or else above it. *)
Lemma SFcompare_lt_split (f1 f2 f3 : spec_float) :
  SFcompare f1 f3 = Some Lt → f2 ≠ S754_nan →
  SFcompare f1 f2 = Some Lt ∨ SFcompare f2 f3 = Some Lt.
Proof. destruct f1, f2, f3; simpl; intros H1 H2; cmp_cases; auto. Qed.

Lemma ltb_true_iff (x y : float) :
  (x <? y) = true ↔ SFcompare (Prim2SF x) (Prim2SF y) = Some Lt.
Proof.
  rewrite ltb_spec. unfold SFltb.
  destruct (SFcompare _ _) as [[]|]; split; congruence.
Qed.

Lemma ltb_trans (x y z : float) :
  (x <? y) = true → (y <? z) = true → (x <? z) = true.
Proof. rewrite !ltb_true_iff. apply SFcompare_lt_trans. Qed.

Lemma ltb_leb_false (x y : float) : (x <? y) = true → (y <=? x) = false.
Proof.
  rewrite ltb_true_iff, leb_spec. intros Hlt%SFcompare_lt_asym.
  unfold SFleb. by rewrite Hlt.
Qed.


Lemma ltb_not_nan_r (x y : float) : (x <? y) = true → not_nan y.
Proof.
  rewrite ltb_true_iff. unfold not_nan. intros Hlt Hn. rewrite Hn in Hlt.
  destruct (Prim2SF x); discriminate.
Qed.

Lemma abs_not_nan (x : float) : not_nan (abs x) → not_nan x.
Proof.
  unfold not_nan. rewrite abs_spec. intros Hn Hx. by rewrite Hx in Hn.
Qed.

Lemma ltb_split (x y z : float) :
  (x <? z) = true → not_nan y → (x <? y) = false → (y <? z) = true.
Proof.
  intros Hxz Hy Hxy. apply ltb_true_iff.
  apply ltb_true_iff in Hxz.
  destruct (SFcompare_lt_split _ (Prim2SF y) _ Hxz Hy) as [Hlt|Hlt]; [|done].
  apply ltb_true_iff in Hlt. congruence.
Qed.
End FloatOrder.

(** ** The normalizer *)

Section MaxAbs.
Local Open Scope float_scope.

Lemma zero_not_nan : not_nan 0.
Proof. unfold not_nan. vm_compute. discriminate. Qed.

Lemma max_abs_step_not_nan (m c : float) :
  not_nan m → not_nan (max_abs_step m c).
Proof.
  intros Hm. unfold max_abs_step.
  destruct (m <? abs c) eqn:Hlt; [|done]. by eapply ltb_not_nan_r.
Qed.

(** No element seen, and not the starting value, exceeds the result of
    the maximum search. *)
Lemma foldl_max_abs_bound (l : vec) (m0 : float) :
  not_nan m0 →
  (foldl max_abs_step m0 l <? m0) = false
  ∧ ∀ c, c ∈ l → (foldl max_abs_step m0 l <? abs c) = false.
Proof.
  revert m0. induction l as [|c l IH]; intros m0 Hm0; simpl.
  - split; [|intros c Hc; by apply elem_of_nil in Hc].
    destruct (m0 <? m0) eqn:Hlt; [|done].
    apply ltb_leb_false in Hlt as Hle.
    rewrite ltb_true_iff in Hlt. rewrite leb_spec in Hle. unfold SFleb in Hle.
    apply SFcompare_lt_asym in Hlt as Hgt. congruence.
  - destruct (IH (max_abs_step m0 c)) as [IH1 IH2];
      [by apply max_abs_step_not_nan|].
    set (M := foldl max_abs_step (max_abs_step m0 c) l) in *.
    unfold max_abs_step in IH1. split.
    + destruct (m0 <? abs c) eqn:Hlt; [|done].
      destruct (M <? m0) eqn:HM; [|done].
      by rewrite (ltb_trans _ _ _ HM Hlt) in IH1.
    + intros c' [->|Hin]%elem_of_cons; [|by apply IH2].
      destruct (m0 <? abs c) eqn:Hlt; [done|].
      destruct (M <? abs c) eqn:HM; [|done].
      by rewrite (ltb_split _ _ _ HM Hm0 IH1) in Hlt.
Qed.

End MaxAbs.

(** ** An infinite coordinate in the maximum search *)

Section InfiniteMaximum.
Local Open Scope float_scope.

Lemma foldl_max_abs_not_nan (l : vec) (m0 : float) :
  not_nan m0 → not_nan (foldl max_abs_step m0 l).
Proof.
  revert m0. induction l as [|c l IH]; intros m0 Hm0; simpl; [done|].
  by apply IH, max_abs_step_not_nan.
Qed.

Lemma is_infinity_spec (c : float) :
  is_infinity c = true → Prim2SF (abs c) = S754_infinity false.
Proof.
  unfold is_infinity. rewrite FloatAxioms.eqb_spec. unfold SFeqb.
  change (Prim2SF infinity) with (S754_infinity false).
  rewrite abs_spec. by destruct (Prim2SF c) as [[]|[]| |[] ? ?].
Qed.

(** With an infinite coordinate the maximum is infinity. *)
Lemma max_abs_infinity (v : vec) (c : float) :
  c ∈ v → is_infinity c = true → max_abs v = infinity.
Proof.
  intros Hin Hinf%is_infinity_spec.
  destruct (foldl_max_abs_bound v 0 zero_not_nan) as [_ Hb].
  specialize (Hb c Hin).
  pose proof (foldl_max_abs_not_nan v 0 zero_not_nan) as Hn.
  fold (max_abs v) in Hb, Hn. unfold not_nan in Hn.
  apply Prim2SF_inj. change (Prim2SF infinity) with (S754_infinity false).
  rewrite ltb_spec, Hinf in Hb. unfold SFltb in Hb.
  by destruct (Prim2SF (max_abs v)) as [[]|[]| |[] ? ?].
Qed.

Lemma mul_zero_cases (c : float) :
  Prim2SF (c * 0) = S754_nan ∨ ∃ s, Prim2SF (c * 0) = S754_zero s.
Proof.
  rewrite mul_spec. change (Prim2SF 0) with (S754_zero false).
  destruct (Prim2SF c) as [s|s| |s m e]; simpl; eauto.
Qed.

Lemma mul_zero_infinite (c : float) :
  is_infinity c = true → Prim2SF (c * 0) = S754_nan.
Proof.
  intros Hinf%is_infinity_spec. rewrite abs_spec in Hinf.
  rewrite mul_spec. change (Prim2SF 0) with (S754_zero false).
  by destruct (Prim2SF c).
Qed.

Lemma is_nan_spec (c : float) : Prim2SF c = S754_nan → is_nan c = true.
Proof. intros Hc. unfold is_nan. by rewrite FloatAxioms.eqb_spec, Hc. Qed.

Lemma is_zero_spec (c : float) (s : bool) :
  Prim2SF c = S754_zero s → is_zero c = true.
Proof.
  intros Hc. unfold is_zero. rewrite FloatAxioms.eqb_spec, Hc.
  change (Prim2SF zero) with (S754_zero false). by destruct s.
Qed.

End InfiniteMaximum.



(** ** The scale strategy *)

(** C9: for a value that compares [<= 0] the vector is returned as it
    is; for a value that compares [> 0] every coordinate is multiplied by
    it, whatever the axis; scaling by 2.0 doubles every coordinate.  The
    same holds through [Model::Transform] with kind [kScale], which
    changes neither the edges nor the error code. *)
Theorem C9_scale `{libm : LibM} (v : vec) (value : float) (axis : transformation_t) :
  ((value <=? 0)%float = true → ScaleStrategy_Transform v value axis = Done v)
  ∧ ((0 <? value)%float = true →
       ScaleStrategy_Transform v value axis
       = Done (map (λ coord, (coord * value)%float) v))
  ∧ (∀ axis', ScaleStrategy_Transform v value axis'
              = ScaleStrategy_Transform v value axis)
  ∧ ScaleStrategy_Transform v 2 axis = Done (map (λ coord, (coord * 2)%float) v)
  ∧ (∀ m : Model, ∃ m',
       Transform kScale value axis m = Done m'
       ∧ vertex_index_ m' = vertex_index_ m
       ∧ error_code_ m' = error_code_ m
       ∧ ((value <=? 0)%float = true → vertex_coord_ m' = vertex_coord_ m)
       ∧ ((0 <? value)%float = true →
            vertex_coord_ m' = map (λ coord, (coord * value)%float) (vertex_coord_ m))).
Proof.
  assert (∀ u, (0 <? value)%float = true →
               ScaleStrategy_Transform u value axis
               = Done (map (λ coord, (coord * value)%float) u)) as Hpos.
  { intros u Hgt%ltb_leb_false. unfold ScaleStrategy_Transform. by rewrite Hgt. }
  assert (∀ u, (value <=? 0)%float = true →
               ScaleStrategy_Transform u value axis = Done u) as Hneg.
  { intros u Hle. unfold ScaleStrategy_Transform. by rewrite Hle. }
  split_and!; [by apply Hneg | by apply Hpos | done | done |].
  intros m. unfold Transform.
  destruct (vertex_coord_ m) as [|c u] eqn:Hv.
  - exists m. rewrite Hv. by split_and!.
  - simpl. unfold PerformTransformation, SetStrategy. simpl.
    unfold ScaleStrategy_Transform.
    destruct (value <=? 0)%float eqn:Hle; eexists; (split; [done|]); simpl;
      split_and!; try done.
    intros Hgt%ltb_leb_false. congruence.
Qed.

(** ** The line loop *)

Section LineLoop.
Context `{libc : LibC}.

(** [getlines] is what repeated calls of [getline] deliver. *)
Lemma getlines_getline (delim : ascii) (s : string) :
  getlines delim s =
    match getline delim s with
    | Some (l, r) => l :: getlines delim r
    | None => []
    end.
Proof.
  induction s as [|c s IH]; simpl; [done|].
  destruct (decide (c = delim)); [done|].
  rewrite IH. by destruct (getline delim s) as [[l r]|].
Qed.

Lemma parse_lines_error (m : Model) (file : list string) :
  error_code_ m ≠ kNoError → parse_lines m file = (m, file).
Proof.
  intros He. destruct file as [|line file]; simpl; [done|].
  by destruct (decide (error_code_ m = kNoError)).
Qed.

Lemma parse_lines_cons (m : Model) (line : string) (file : list string) :
  error_code_ m = kNoError →
  parse_lines m (line :: file) = parse_lines (parse_line line m) file.
Proof.
  intros He. simpl. by destruct (decide (error_code_ m = kNoError)).
Qed.

(** The loop reads the lines one by one, as long as no error is set. *)
Lemma parse_lines_app (m : Model) (l1 l2 : list string) :
  parse_lines m (l1 ++ l2) =
    if decide (error_code_ (parse_lines m l1).1 = kNoError)
    then parse_lines (parse_lines m l1).1 l2
    else ((parse_lines m l1).1, (parse_lines m l1).2 ++ l2).
Proof.
  revert m. induction l1 as [|line l1 IH]; intros m; simpl.
  - destruct (decide (error_code_ m = kNoError)) as [He|He]; [done|].
    by rewrite parse_lines_error.
  - destruct (decide (error_code_ m = kNoError)) as [He|He]; [apply IH|].
    simpl. by destruct (decide (error_code_ m = kNoError)).
Qed.
End LineLoop.

(** C4: with an error code set, the line loop returns with the model
    and the stream as they are, so the lines after the one that set the
    error stay unread whatever they are, and [Parser] returns the model
    it was given;
    [SetFileName] with a valid path clears the error, after which
    [Parser] runs again. *)
Theorem C4_error_is_sticky `{libc : LibC} (fs : gmap string string)
    (m : Model) (file : list string) :
  error_code_ m ≠ kNoError →
  parse_lines m file = (m, file)
  ∧ (∀ m0 line, error_code_ m0 = kNoError → parse_line line m0 = m →
       parse_lines m0 (line :: file) = (m, file))
  ∧ (∀ m0 l1, (parse_lines m0 l1).1 = m →
       parse_lines m0 (l1 ++ file) = (m, (parse_lines m0 l1).2 ++ file))
  ∧ Parser fs m = m
  ∧ Parser fs (Parser fs m) = m
  ∧ (∀ path, spec_valid_path path →
       error_code_ (SetFileName path m) = kNoError
       ∧ (fs !! path = None →
            error_code_ (Parser fs (SetFileName path m)) = kFailedToOpen)).
Proof.
  intros He.
  assert (Parser fs m = m) as HP.
  { unfold Parser. by destruct (decide (error_code_ m = kNoError)). }
  split_and!.
  - by apply parse_lines_error.
  - intros m0 line H0 <-. rewrite parse_lines_cons by done.
    by apply parse_lines_error.
  - intros m0 l1 Hm. rewrite parse_lines_app, Hm.
    by destruct (decide (error_code_ m = kNoError)).
  - done.
  - by rewrite !HP.
  - intros path Hvalid.
    destruct (SetFileName_fields path m) as (_ & _ & Hok & _).
    destruct (Hok Hvalid) as [Herr Hname]. split; [done|].
    intros Hfs. unfold Parser. rewrite Herr, Hname, Hfs.
    by destruct (decide (kNoError = kNoError)).
Qed.

(** ** Face lines *)

Section FaceLines.
Context `{libc : LibC}.

(** [getline] delivers the pieces of [split], except a last empty one. *)
Lemma split_getlines (delim : ascii) (s : string) :
  split delim s = getlines delim s ++ [EmptyString]
  ∨ (split delim s = getlines delim s ∧ getlines delim s ≠ []).
Proof.
  induction s as [|c s IH]; simpl; [by left|].
  destruct (decide (c = delim)).
  - destruct IH as [->|[-> _]]; [by left | by right].
  - destruct IH as [->|[-> Hne]].
    + destruct (getlines delim s); simpl; [by right | by left].
    + destruct (getlines delim s); [done | by right].
Qed.

Lemma filter_getlines_split (delim : ascii) (s : string) :
  filter (λ t, t ≠ EmptyString) (getlines delim s)
  = filter (λ t, t ≠ EmptyString) (split delim s).
Proof.
  destruct (split_getlines delim s) as [->|[-> _]]; [|done].
  rewrite filter_app. rewrite (filter_cons_False _ EmptyString) by (by intros []).
  by rewrite filter_nil, app_nil_r.
Qed.

Lemma face_token_valid (face_indices : list Z) (token : string) :
  face_token face_indices token =
    match valid_token token with
    | Some n => face_indices ++ [n]
    | None => face_indices
    end.
Proof.
  unfold face_token, valid_token.
  destruct (decide (token = EmptyString)) as [->|Hne].
  - simpl. unfold sscanf_d. simpl. done.
  - destruct (sscanf_d (c_str token) 0) as [ret index]; simpl.
    destruct (decide (ret = 1 ∧ index > 0)) as [[-> Hpos]|Hn].
    + destruct (decide (1 = 1)); [|done]. by destruct (decide (index > 0)).
    + destruct (decide (ret = 1)); [|done].
      destruct (decide (index > 0)); [|done]. tauto.
Qed.

Lemma foldl_face_token (tokens : list string) (face_indices : list Z) :
  foldl face_token face_indices tokens
  = face_indices
    ++ omap valid_token (filter (λ t, t ≠ EmptyString) tokens).
Proof.
  revert face_indices.
  induction tokens as [|token tokens IH]; intros face_indices; simpl.
  - by rewrite app_nil_r.
  - rewrite IH. destruct (decide (token = EmptyString)) as [->|Hne].
    + rewrite filter_cons_False by (by intros []).
      unfold face_token. by destruct (decide (EmptyString = EmptyString)).
    + rewrite filter_cons_True by done. simpl.
      rewrite face_token_valid.
      destruct (valid_token token); [|done]. by rewrite <- app_assoc.
Qed.

Lemma face_indices_spec (line : string) :
  foldl face_token [] (getlines " "%char line) = spec_face_indices line.
Proof.
  rewrite foldl_face_token. simpl. unfold spec_face_indices.
  by rewrite filter_getlines_split.
Qed.

Lemma spec_face_indices_nonneg (line : string) (i : Z) :
  i ∈ spec_face_indices line → 0 ≤ i.
Proof.
  unfold spec_face_indices. intros (token & _ & Hv)%list_elem_of_omap.
  unfold valid_token in Hv.
  destruct (decide _); [|done]. destruct (decide _); [|done].
  inversion Hv. lia.
Qed.
End FaceLines.

Section FaceEdges.
Context `{libc : LibC}.

Lemma foldl_face_edge (face_indices : list Z) (idx : list nat)
    (vertex_index : list Z) :
  foldl (face_edge face_indices) vertex_index idx
  = vertex_index
    ++ flat_map (λ i, [face_indices !!! i;
                       face_indices !!! ((i + 1) mod length face_indices)%nat])
                idx.
Proof.
  revert vertex_index. induction idx as [|i idx IH]; intros vi; simpl.
  - by rewrite app_nil_r.
  - rewrite IH. unfold face_edge. by rewrite <- !app_assoc.
Qed.

Lemma rotate_nat_add_1 (i n : nat) :
  rotate_nat_add 1 i n = ((i + 1) mod n)%nat.
Proof.
  unfold rotate_nat_add.
  replace (Z.of_nat 1 + Z.of_nat i) with (Z.of_nat (i + 1)) by lia.
  rewrite <- Nat2Z.inj_mod. apply Nat2Z.id.
Qed.

(** The pairs that the edge loop visits are the list zipped with
    itself rotated by one. *)
Lemma edge_pairs (l : list Z) :
  (λ i, (l !!! i, l !!! ((i + 1) mod length l)%nat)) <$> seq 0 (length l)
  = zip l (rotate 1 l).
Proof.
  apply list_eq. intros i.
  rewrite list_lookup_fmap, lookup_zip_with.
  destruct (decide (i < length l)%nat) as [Hlt|Hge].
  - rewrite lookup_seq_lt by done. simpl.
    rewrite (list_lookup_lookup_total_lt l i) by done. simpl.
    rewrite lookup_rotate_r by done. rewrite rotate_nat_add_1.
    rewrite (list_lookup_lookup_total_lt l ((i + 1) mod length l)).
    + done.
    + apply Nat.mod_upper_bound. lia.
  - rewrite lookup_seq_ge by lia. simpl.
    by rewrite (lookup_ge_None_2 l i) by lia.
Qed.

Lemma face_edges_cyclic (l vertex_index : list Z) :
  foldl (face_edge l) vertex_index (seq 0 (length l))
  = vertex_index ++ cyclic_edges l.
Proof.
  rewrite foldl_face_edge. f_equal. unfold cyclic_edges.
  rewrite <- edge_pairs. generalize (seq 0 (length l)) as idx.
  induction idx as [|i idx IH]; simpl; [done | by rewrite IH].
Qed.

Lemma length_cyclic_edges (l : list Z) :
  length (cyclic_edges l) = (2 * length l)%nat.
Proof.
  unfold cyclic_edges.
  assert (length (zip l (rotate 1 l)) = length l) as <-.
  { rewrite length_zip_with, length_rotate. lia. }
  generalize (zip l (rotate 1 l)) as ps.
  induction ps as [|e ps IH]; simpl; [done | rewrite IH; lia].
Qed.

Lemma elem_of_cyclic_edges (l : list Z) (i : Z) :
  i ∈ cyclic_edges l → i ∈ l.
Proof.
  unfold cyclic_edges. rewrite list_elem_of_In, in_flat_map.
  intros ([a b] & Hin & Hi).
  rewrite <- list_elem_of_In in Hin. rewrite <- list_elem_of_In in Hi.
  apply elem_of_zip_with in Hin as (x & y & [= -> ->] & Hx & Hy).
  simpl in Hi. apply elem_of_cons in Hi as [->|Hi]; [done|].
  apply elem_of_cons in Hi as [->|Hi]; [|by apply elem_of_nil in Hi].
  unfold rotate in Hy. apply elem_of_app in Hy as [Hy|Hy].
  - by eapply subseteq_drop.
  - by eapply subseteq_take.
Qed.

Lemma EdgesParser_spec (line : string) (m : Model) :
  EdgesParser_ line m =
    if decide (2 ≤ length (spec_face_indices line))%nat
    then set_index (vertex_index_ m ++ cyclic_edges (spec_face_indices line)) m
    else m.
Proof.
  unfold EdgesParser_. rewrite face_indices_spec.
  destruct (decide _); [|done]. by rewrite face_edges_cyclic.
Qed.
End FaceEdges.

(** ** Lines of the source *)

Section Lines.
Context `{libc : LibC}.

Lemma skip_ws_idemp (s : string) : skip_ws (skip_ws s) = skip_ws s.
Proof.
  induction s as [|c s IH]; simpl; [done|].
  destruct (isspace c) eqn:Hc; [done|]. simpl. by rewrite Hc.
Qed.

(** [sscanf] returns 4 exactly when three numbers can be read. *)
Lemma sscanf_three_numbers (c dummy : ascii) (s : string) (x y z : float) :
  match three_numbers s with
  | Some (x', y', z') =>
      sscanf_c_lf_lf_lf (String c s) dummy x y z = (4, (c, x', y', z'))
  | None => (sscanf_c_lf_lf_lf (String c s) dummy x y z).1 ≠ 4
  end.
Proof.
  unfold three_numbers, sscanf_c_lf_lf_lf. rewrite skip_ws_idemp.
  destruct (scan_lf (skip_ws s)) as [[x' r1]|]; simpl; [|done].
  destruct (scan_lf (skip_ws r1)) as [[y' r2]|]; simpl; [|done].
  destruct (scan_lf (skip_ws r2)) as [[z' r3]|]; simpl; done.
Qed.

Lemma VertexParser_spec (rest : string) (m : Model) :
  VertexParser_ (String "v" (String " " rest)) m =
    match three_numbers (c_str rest) with
    | Some (x, y, z) => set_coord (vertex_coord_ m ++ [x; y; z]) m
    | None => set_error kIncorrectData m
    end.
Proof.
  unfold VertexParser_.
  change (c_str (String "v" (String " " rest)))
    with (String "v" (String " " (c_str rest))).
  pose proof (sscanf_three_numbers "v" "000" (String " " (c_str rest))
                0%float 0%float 0%float) as Hs.
  assert (three_numbers (String " " (c_str rest)) = three_numbers (c_str rest))
    as Heq by done.
  rewrite Heq in Hs.
  destruct (three_numbers (c_str rest)) as [[[x y] z]|].
  - rewrite Hs. by destruct (decide _) as [|[]].
  - destruct (sscanf_c_lf_lf_lf _ _ _ _ _) as [parsed [[[dummy x] y] z]].
    simpl in Hs. destruct (decide _) as [[? ?]|]; done.
Qed.

Lemma parse_line_vertex (rest : string) (m : Model) :
  parse_line (String "v" (String " " rest)) m
  = VertexParser_ (String "v" (String " " rest)) m.
Proof. done. Qed.

Lemma parse_line_face (rest : string) (m : Model) :
  parse_line (String "f" (String " " rest)) m = EdgesParser_ rest m.
Proof. done. Qed.

Lemma VertexParser_index (line : string) (m : Model) :
  vertex_index_ (VertexParser_ line m) = vertex_index_ m.
Proof.
  unfold VertexParser_.
  destruct (sscanf_c_lf_lf_lf _ _ _ _ _) as [parsed [[[dummy x] y] z]].
  by destruct (decide _).
Qed.

(** An index stored by a line is an index of that face line. *)
Lemma parse_line_index (line : string) (m : Model) (i : Z) :
  i ∈ vertex_index_ (parse_line line m) →
  i ∈ vertex_index_ m
  ∨ ∃ rest, line = String "f" (String " " rest) ∧ i ∈ spec_face_indices rest.
Proof.
  unfold parse_line.
  destruct line as [|c0 [|c1 rest]]; [by left | by left |].
  destruct (decide (c0 = "#"%char)); [by left|].
  destruct (decide (c0 = "v"%char ∧ c1 = " "%char)).
  { rewrite VertexParser_index. by left. }
  destruct (decide (c0 = "f"%char ∧ c1 = " "%char)) as [[-> ->]|]; [|by left].
  simpl drop2. rewrite EdgesParser_spec.
  destruct (decide _); [|by left]. simpl.
  intros [Hi|Hi%elem_of_cyclic_edges]%elem_of_app; [by left|].
  right. by exists rest.
Qed.

Lemma parse_lines_index (file : list string) (m : Model) (i : Z) :
  i ∈ vertex_index_ (parse_lines m file).1 →
  i ∈ vertex_index_ m
  ∨ ∃ rest, String "f" (String " " rest) ∈ file ∧ i ∈ spec_face_indices rest.
Proof.
  revert m. induction file as [|line file IH]; intros m; simpl; [by left|].
  destruct (decide (error_code_ m = kNoError)); [|by left].
  intros [Hi|(rest & Hin & Hi)]%IH.
  - apply parse_line_index in Hi as [Hi|(rest & -> & Hi)]; [by left|].
    right. exists rest. split; [apply elem_of_cons; by left | done].
  - right. exists rest. split; [apply elem_of_cons; by right | done].
Qed.

(** Only a vertex line can change the error code. *)
Lemma parse_line_error (line : string) (m : Model) :
  (∀ rest, line ≠ String "v" (String " " rest)) →
  error_code_ (parse_line line m) = error_code_ m.
Proof.
  intros Hnv. unfold parse_line.
  destruct line as [|c0 [|c1 rest]]; [done..|].
  destruct (decide (c0 = "#"%char)); [done|].
  destruct (decide (c0 = "v"%char ∧ c1 = " "%char)) as [[-> ->]|].
  { by destruct (Hnv rest). }
  destruct (decide (c0 = "f"%char ∧ c1 = " "%char)); [|done].
  rewrite EdgesParser_spec. by destruct (decide _).
Qed.

Lemma parse_lines_error_free (file : list string) (m : Model) :
  (∀ rest, String "v" (String " " rest) ∉ file) →
  error_code_ (parse_lines m file).1 = error_code_ m.
Proof.
  revert m. induction file as [|line file IH]; intros m Hnv; simpl; [done|].
  destruct (decide (error_code_ m = kNoError)); [|done].
  rewrite IH.
  - apply parse_line_error. intros rest ->.
    apply (Hnv rest), list_elem_of_here.
  - intros rest Hin. by apply (Hnv rest), list_elem_of_further.
Qed.

Lemma Normalize_index (m : Model) :
  vertex_index_ (Normalize_ m) = vertex_index_ m.
Proof.
  unfold Normalize_. destruct (vertex_coord_ m); [done|].
  by destruct (_ <? _)%float.
Qed.
End Lines.

Lemma lookup_flat_map_pairs {A} (g h : nat → A) (idx : list nat) (i : nat) :
  flat_map (λ j, [g j; h j]) idx !! (2 * i)%nat = g <$> idx !! i
  ∧ flat_map (λ j, [g j; h j]) idx !! (2 * i + 1)%nat = h <$> idx !! i.
Proof.
  revert i. induction idx as [|j idx IH]; intros i; [done|].
  destruct i as [|i]; [done|].
  replace (2 * S i)%nat with (S (S (2 * i))) by lia.
  replace (S (S (2 * i)) + 1)%nat with (S (S (2 * i + 1))) by lia.
  exact (IH i).
Qed.

(** The entries [2 i] and [2 i + 1] of the edge list are the elements
    [i] and [i + 1], the latter taken modulo the length. *)
Lemma lookup_cyclic_edges (l : list Z) (i : nat) :
  (i < length l)%nat →
  cyclic_edges l !! (2 * i)%nat = l !! i
  ∧ cyclic_edges l !! (2 * i + 1)%nat = l !! ((i + 1) mod length l)%nat.
Proof.
  intros Hlt.
  assert (cyclic_edges l
          = flat_map (λ j, [l !!! j; l !!! ((j + 1) mod length l)%nat])
                     (seq 0 (length l))) as ->.
  { unfold cyclic_edges. rewrite <- edge_pairs.
    generalize (seq 0 (length l)) as idx.
    induction idx as [|j idx IH]; simpl; [done | by rewrite <- IH]. }
  destruct (lookup_flat_map_pairs (λ j, l !!! j)
              (λ j, l !!! ((j + 1) mod length l)%nat) (seq 0 (length l)) i)
    as [-> ->].
  rewrite lookup_seq_lt by done. simpl.
  rewrite !list_lookup_lookup_total_lt; [done| |done].
  apply Nat.mod_upper_bound. lia.
Qed.

(** What the parser does check: an index stored by a load is not
    negative and is the zero-based value of a valid token of a face line
    of the source that was read. *)
Lemma edge_indices_from_face_tokens `{libc : LibC}
    (fs : gmap string string) (path : string) (m0 : Model) (i : Z) :
  i ∈ vertex_index_ (Parser fs (SetFileName path m0)) →
  0 ≤ i
  ∧ ∃ content rest,
      fs !! path = Some content
      ∧ String "f" (String " " rest) ∈ getlines "010"%char content
      ∧ i ∈ spec_face_indices rest.
Proof.
  destruct (SetFileName_fields path m0) as (_ & Hidx & Hok & Hbad).
  unfold Parser.
  destruct (decide (error_code_ (SetFileName path m0) = kNoError)) as [He|He];
    [|rewrite Hidx; by intros ?%elem_of_nil].
  assert (spec_valid_path path) as Hv.
  { apply IsValidObjExtension_spec.
    destruct (IsValidObjExtension_ path) eqn:Hb; [done|]. exfalso.
    assert (¬ spec_valid_path path) as Hn
      by (rewrite <- IsValidObjExtension_spec; congruence).
    destruct (Hbad Hn). congruence. }
  destruct (Hok Hv) as [_ ->].
  destruct (fs !! path) as [content|] eqn:Hfs;
    [|simpl; rewrite Hidx; by intros ?%elem_of_nil].
  intros Hi.
  assert (i ∈ vertex_index_
            (parse_lines (SetFileName path m0) (getlines "010" content)).1)
    as Hin.
  { destruct (decide _); [by rewrite Normalize_index in Hi | done]. }
  apply parse_lines_index in Hin as [Hin|(rest & Hline & Hin)].
  - rewrite Hidx in Hin. by apply elem_of_nil in Hin.
  - split; [by eapply spec_face_indices_nonneg|]. by exists content, rest.
Qed.

(** The reads of one [glVertex3d] call stay inside the buffer exactly
    when the three positions exist. *)
Lemma glVertex3d_reads_inside (v : vec) (idx : Z) :
  is_Some (glVertex3d_reads v idx) ↔ 0 ≤ idx ∧ idx + 2 < Z.of_nat (length v).
Proof.
  unfold glVertex3d_reads. destruct (decide (0 ≤ idx)) as [H0|H0].
  - split.
    + intros Hs. split; [done|].
      destruct (v !! Z.to_nat idx); [|by destruct Hs].
      destruct (v !! Z.to_nat (idx + 1)); [|by destruct Hs].
      destruct (v !! Z.to_nat (idx + 2)) eqn:Hz; [|by destruct Hs].
      apply lookup_lt_Some in Hz. lia.
    + intros [_ Hlt].
      destruct (lookup_lt_is_Some_2 v (Z.to_nat idx)) as [x ->]; [lia|].
      destruct (lookup_lt_is_Some_2 v (Z.to_nat (idx + 1))) as [y ->]; [lia|].
      destruct (lookup_lt_is_Some_2 v (Z.to_nat (idx + 2))) as [z ->]; [lia|].
      done.
  - split; [by intros [? ?]|]. intros [? _]. lia.
Qed.

(** The edge loop of [paintGL] stays inside its two buffers exactly when
    the edge sequence has an even number of entries and every entry is
    the index of a whole vertex of the coordinate buffer. *)
Lemma paintGL_lines_inside (v : vec) (idx : list Z) :
  is_Some (paintGL_lines v idx)
  ↔ Nat.Even (length idx)
    ∧ Forall (λ i, 0 ≤ i ∧ i * 3 + 2 < Z.of_nat (length v)) idx.
Proof.
  cut ((is_Some (paintGL_lines v idx)
        ↔ Nat.Even (length idx)
          ∧ Forall (λ i, 0 ≤ i ∧ i * 3 + 2 < Z.of_nat (length v)) idx)
       ∧ ∀ a, is_Some (paintGL_lines v (a :: idx))
              ↔ Nat.Even (length (a :: idx))
                ∧ Forall (λ i, 0 ≤ i ∧ i * 3 + 2 < Z.of_nat (length v))
                         (a :: idx)); [by intros [? _]|].
  induction idx as [|b idx [IH IHb]].
  - split.
    + split; [intros _; split; [by exists 0%nat | constructor]|by eexists].
    + intros a. split; [by intros [? ?]|].
      intros [[k Hk] _]. simpl in Hk. lia.
  - split; [apply IHb|]. intros a.
    change (paintGL_lines v (a :: b :: idx))
      with (match glVertex3d_reads v (a * 3), glVertex3d_reads v (b * 3),
                  paintGL_lines v idx with
            | Some p1, Some p2, Some lines => Some ((p1, p2) :: lines)
            | _, _, _ => None
            end).
    pose proof (glVertex3d_reads_inside v (a * 3)) as Ha.
    pose proof (glVertex3d_reads_inside v (b * 3)) as Hb.
    rewrite !Forall_cons.
    assert (Nat.Even (length (a :: b :: idx)) ↔ Nat.Even (length idx)) as ->.
    { simpl. split; intros [k Hk]; [exists (k - 1)%nat | exists (S k)]; lia. }
    destruct (glVertex3d_reads v (a * 3)) as [p1|].
    + destruct (glVertex3d_reads v (b * 3)) as [p2|].
      * destruct (paintGL_lines v idx) as [lines|].
        -- split; [intros _|by eexists].
           destruct (proj1 Ha) as [? ?]; [by eexists|].
           destruct (proj1 Hb) as [? ?]; [by eexists|].
           destruct (proj1 IH) as [? ?]; [by eexists|].
           repeat split; (done || lia).
        -- split; [by intros [? ?]|]. intros (He & _ & _ & HF).
           by destruct (proj2 IH) as [? ?].
      * split; [by intros [? ?]|]. intros (_ & _ & [? ?] & _).
        by destruct (proj2 Hb) as [? ?]; [split; lia|].
    + split; [by intros [? ?]|]. intros (_ & [? ?] & _).
      by destruct (proj2 Ha) as [? ?]; [split; lia|].
Qed.

(** C1: the code breaks the claim.  The source with one vertex and the
    face [f 1 2] loads without error and stores the index 1, which is
    not below the vertex count 1: [EdgesParser_] checks [index > 0] and
    no upper bound.  The edge loop of [paintGL], which receives these
    buffers through the [ModelLoaded] signal, relies on the bound: here
    it reads [vertex_coord_[3]] in a buffer of 3 coordinates. *)
Theorem C1_index_beyond_vertex_count :
  error_code_ (load dangling_source) = kNoError
  ∧ vertex_coord_ (load dangling_source) = [0%float; 0%float; 0%float]
  ∧ GetVertexCount (load dangling_source) = 1%nat
  ∧ vertex_index_ (load dangling_source) = [0; 1; 1; 0]
  ∧ ¬ Forall (λ i, i < Z.of_nat (GetVertexCount (load dangling_source)))
             (vertex_index_ (load dangling_source))
  ∧ (LoadModel (libc := decimal_libc) id
       {[ "m.obj"%string := dangling_source ]} "m.obj" initial_model).2
    = ModelLoaded [0; 1; 1; 0] [0%float; 0%float; 0%float] "m.obj" 1 2
  ∧ glVertex3d_reads (vertex_coord_ (load dangling_source)) (1 * 3) = None
  ∧ paintGL_lines (vertex_coord_ (load dangling_source))
                  (vertex_index_ (load dangling_source)) = None.
Proof.
  split_and!;
    [by vm_compute|by vm_compute|by vm_compute|by vm_compute|
    |by vm_compute..].
  intros HF. rewrite Forall_forall in HF.
  assert (1 ∈ vertex_index_ (load dangling_source)) as Hin.
  { vm_compute. apply list_elem_of_further, list_elem_of_here. }
  apply HF in Hin. vm_compute in Hin. discriminate.
Qed.

(** C2, as the claim has it, fails: the line [v 1 2 3 4] has extra
    content after the three numbers, yet the parser appends 1, 2, 3 and
    sets no error. *)
Lemma C2_counterexample :
  vertex_coord_ (VertexParser_ "v 1 2 3 4" initial_model)
  = [1%float; 2%float; 3%float]
  ∧ error_code_ (VertexParser_ "v 1 2 3 4" initial_model) = kNoError
  ∧ vertex_coord_ (load trailing_source) = [1%float; 2%float; 3%float]
  ∧ error_code_ (load trailing_source) = kNoError.
Proof. split_and!; by vm_compute. Qed.

(** C2, as the code has it: on a line that starts with [v] and a space
    the parser appends three numbers exactly when three numbers can be
    read one after the other from the rest of the line, each after
    optional white space; what follows the third number is ignored.
    When they cannot be read it sets [kIncorrectData] and appends
    nothing. *)
Theorem C2_vertex_line `{libc : LibC} (rest : string) (m : Model) :
  match three_numbers (c_str rest) with
  | Some (x, y, z) =>
      parse_line (String "v" (String " " rest)) m
      = set_coord (vertex_coord_ m ++ [x; y; z]) m
  | None =>
      parse_line (String "v" (String " " rest)) m = set_error kIncorrectData m
  end.
Proof.
  rewrite parse_line_vertex, VertexParser_spec.
  by destruct (three_numbers (c_str rest)) as [[[x y] z]|].
Qed.

(** C3: on a face line a token whose conversion does not return 1, or
    returns a value that is not positive, leaves the index list as it
    is, and a token that converts to [n > 0] appends [n - 1]; the index
    list is the one of the specification; the line changes neither the
    error code nor the coordinates, whatever its tokens are, and a
    source without vertex lines ends with the error code it started
    with. *)
Theorem C3_face_lines_never_fail `{libc : LibC} (line : string) (m : Model) :
  (∀ face_indices token,
     (sscanf_d (c_str token) 0).1 ≠ 1 ∨ (sscanf_d (c_str token) 0).2 ≤ 0 →
     face_token face_indices token = face_indices)
  ∧ (∀ face_indices token n,
       sscanf_d (c_str token) 0 = (1, n) → n > 0 →
       face_token face_indices token = face_indices ++ [n - 1])
  ∧ foldl face_token [] (getlines " "%char line) = spec_face_indices line
  ∧ error_code_ (EdgesParser_ line m) = error_code_ m
  ∧ vertex_coord_ (EdgesParser_ line m) = vertex_coord_ m
  ∧ error_code_ (parse_line (String "f" (String " " line)) m) = error_code_ m
  ∧ (∀ file, (∀ rest, String "v" (String " " rest) ∉ file) →
       error_code_ (parse_lines m file).1 = error_code_ m).
Proof.
  assert (error_code_ (EdgesParser_ line m) = error_code_ m) as Herr.
  { rewrite EdgesParser_spec. by destruct (decide _). }
  split_and!.
  - intros acc token Hbad. rewrite face_token_valid. unfold valid_token.
    destruct (decide _); [|done]. destruct (decide _); [|done].
    destruct Hbad; [done | lia].
  - intros acc token n Hs Hn. rewrite face_token_valid. unfold valid_token.
    rewrite Hs. simpl. destruct (decide (1 = 1)); [|done].
    by destruct (decide (n > 0)).
  - apply face_indices_spec.
  - done.
  - rewrite EdgesParser_spec. by destruct (decide _).
  - by rewrite parse_line_face.
  - intros file Hnv. by apply parse_lines_error_free.
Qed.

(** C5: a face line with at least two valid indices appends to the edge
    sequence one edge per consecutive pair of the index list taken as a
    cycle, the last one from the last index back to the first: two
    entries per index; with fewer than two valid indices the model is
    left as it is.  The quad source gives 4 vertices and the 8 entries
    (0,1), (1,2), (2,3), (3,0). *)
Theorem C5_cyclic_edges `{libc : LibC} (line : string) (m : Model) :
  ((2 ≤ length (spec_face_indices line))%nat →
     EdgesParser_ line m
     = set_index (vertex_index_ m ++ cyclic_edges (spec_face_indices line)) m)
  ∧ ((length (spec_face_indices line) < 2)%nat → EdgesParser_ line m = m)
  ∧ length (cyclic_edges (spec_face_indices line))
    = (2 * length (spec_face_indices line))%nat
  ∧ (∀ i, (i < length (spec_face_indices line))%nat →
       cyclic_edges (spec_face_indices line) !! (2 * i)%nat
       = spec_face_indices line !! i
       ∧ cyclic_edges (spec_face_indices line) !! (2 * i + 1)%nat
         = spec_face_indices line
             !! ((i + 1) mod length (spec_face_indices line))%nat)
  ∧ error_code_ (load quad_source) = kNoError
  ∧ GetVertexCount (load quad_source) = 4%nat
  ∧ vertex_index_ (load quad_source) = [0; 1; 1; 2; 2; 3; 3; 0].
Proof.
  split_and!.
  - intros Hge. rewrite EdgesParser_spec. by destruct (decide _).
  - intros Hlt. rewrite EdgesParser_spec. destruct (decide _); [lia | done].
  - apply length_cyclic_edges.
  - intros i Hi. by apply lookup_cyclic_edges.
  - by vm_compute.
  - by vm_compute.
  - by vm_compute.
Qed.

(** ** The strided loops *)

Section Stride.
Local Open Scope nat_scope.

(** The loop ends within as many steps as the vector has elements. *)
Lemma stride3_fuel (body : nat → vec → option vec) (fuel i : nat) (v : vec) :
  (∀ j u u', body j u = Some u' → length u' = length u) →
  length v ≤ i + fuel →
  stride3 body fuel i v ≠ OutOfFuel.
Proof.
  intros Hlen. revert i v.
  induction fuel as [|fuel IH]; intros i v Hfuel; simpl.
  - destruct (decide (i < length v)); [lia | done].
  - destruct (decide (i < length v)); [|done].
    destruct (body i v) as [v'|] eqn:Hb; [|done].
    apply IH. rewrite (Hlen _ _ _ Hb). lia.
Qed.

Lemma length_coords_of (vs : list vertex) :
  length (coords_of vs) = 3 * length vs.
Proof. induction vs as [|v vs IH]; simpl; [done | rewrite IH; lia]. Qed.

(** A body that rewrites the vertex at its index rewrites every vertex. *)
Lemma stride3_vertices (body : nat → vec → option vec) (f : vertex → vertex)
    (off : nat) :
  off < 3 →
  (∀ pre v post,
     body (length pre + off) (pre ++ coords_of [v] ++ post)
     = Some (pre ++ coords_of [f v] ++ post)) →
  ∀ todo pre fuel,
    length todo ≤ fuel →
    stride3 body fuel (length pre + off) (pre ++ coords_of todo)
    = Done (pre ++ coords_of (map f todo)).
Proof.
  intros Hoff Hbody. induction todo as [|v todo IH]; intros pre fuel Hfuel.
  - simpl. rewrite app_nil_r.
    destruct fuel; simpl; (destruct (decide _); [lia | done]).
  - destruct fuel as [|fuel]; [simpl in Hfuel; lia|].
    change (coords_of (v :: todo)) with (coords_of [v] ++ coords_of todo).
    simpl stride3.
    destruct (decide _) as [_|Hn].
    2:{ exfalso. apply Hn. rewrite !length_app. simpl. lia. }
    pose proof (Hbody pre v (coords_of todo)) as Hb. simpl in Hb. rewrite Hb.
    pose proof (IH (pre ++ coords_of [f v]) fuel ltac:(simpl in Hfuel; lia))
      as HI.
    rewrite length_app in HI. simpl in HI. rewrite <- !app_assoc in HI.
    simpl in HI.
    replace (length pre + 3 + off) with (length pre + off + 3) in HI by lia.
    by rewrite HI.
Qed.

Lemma rotate_z_body_vertex (c s : float) (pre : vec) (v : vertex) (post : vec) :
  rotate_z_body c s (length pre + 0) (pre ++ coords_of [v] ++ post)
  = Some (pre ++ coords_of [rot_z c s v] ++ post).
Proof.
  destruct v as [[x y] z]. unfold rotate_z_body. simpl.
  rewrite Nat.add_0_r.
  rewrite (list_lookup_middle pre (y :: z :: post) x (length pre) eq_refl).
  simpl.
  rewrite lookup_app_r by lia.
  replace (length pre + 1 - length pre) with 1 by lia. simpl.
  rewrite !insert_app_r_alt by lia.
  replace (length pre - length pre) with 0 by lia.
  replace (length pre + 1 - length pre) with 1 by lia. done.
Qed.

Lemma rotate_y_body_vertex (c s : float) (pre : vec) (v : vertex) (post : vec) :
  rotate_y_body c s (length pre + 0) (pre ++ coords_of [v] ++ post)
  = Some (pre ++ coords_of [rot_y c s v] ++ post).
Proof.
  destruct v as [[x y] z]. unfold rotate_y_body. simpl.
  rewrite Nat.add_0_r.
  rewrite (list_lookup_middle pre (y :: z :: post) x (length pre) eq_refl).
  simpl.
  rewrite lookup_app_r by lia.
  replace (length pre + 2 - length pre) with 2 by lia. simpl.
  rewrite !insert_app_r_alt by lia.
  replace (length pre - length pre) with 0 by lia.
  replace (length pre + 2 - length pre) with 2 by lia. done.
Qed.

Lemma rotate_x_body_vertex (c s : float) (pre : vec) (v : vertex) (post : vec) :
  rotate_x_body c s (length pre + 1) (pre ++ coords_of [v] ++ post)
  = Some (pre ++ coords_of [rot_x c s v] ++ post).
Proof.
  destruct v as [[x y] z]. unfold rotate_x_body. simpl.
  rewrite !lookup_app_r by lia.
  replace (length pre + 1 - length pre) with 1 by lia.
  replace (length pre + 1 + 1 - length pre) with 2 by lia. simpl.
  rewrite !insert_app_r_alt by lia.
  replace (length pre + 1 - length pre) with 1 by lia.
  replace (length pre + 1 + 1 - length pre) with 2 by lia. done.
Qed.

Lemma RotateAroundX_vertices (vs : list vertex) (c s : float) :
  RotateAroundX_ (coords_of vs) c s = Done (coords_of (map (rot_x c s) vs)).
Proof.
  unfold RotateAroundX_.
  apply (stride3_vertices (rotate_x_body c s) (rot_x c s) 1 ltac:(lia)
           (rotate_x_body_vertex c s) vs []).
  rewrite length_coords_of. lia.
Qed.

Lemma RotateAroundY_vertices (vs : list vertex) (c s : float) :
  RotateAroundY_ (coords_of vs) c s = Done (coords_of (map (rot_y c s) vs)).
Proof.
  unfold RotateAroundY_.
  apply (stride3_vertices (rotate_y_body c s) (rot_y c s) 0 ltac:(lia)
           (rotate_y_body_vertex c s) vs []).
  rewrite length_coords_of. lia.
Qed.

Lemma RotateAroundZ_vertices (vs : list vertex) (c s : float) :
  RotateAroundZ_ (coords_of vs) c s = Done (coords_of (map (rot_z c s) vs)).
Proof.
  unfold RotateAroundZ_.
  apply (stride3_vertices (rotate_z_body c s) (rot_z c s) 0 ltac:(lia)
           (rotate_z_body_vertex c s) vs []).
  rewrite length_coords_of. lia.
Qed.
End Stride.

(** ** The rotate strategy *)

Lemma RotateStrategy_Transform_vertices `{libm : LibM} (vs : list vertex)
    (angle : float) (axis : transformation_t) :
  RotateStrategy_Transform (coords_of vs) angle axis =
    let c := cos (angle * kRadianToDegree)%float in
    let s := sin (angle * kRadianToDegree)%float in
    Done (coords_of (map match axis with
                         | kX => rot_x c s
                         | kY => rot_y c s
                         | kZ => rot_z c s
                         end vs)).
Proof.
  unfold RotateStrategy_Transform.
  destruct (decide (length (coords_of vs) < 3)%nat) as [Hlt|_].
  - rewrite length_coords_of in Hlt. destruct vs; [|simpl in Hlt; lia].
    by destruct axis.
  - destruct axis; simpl.
    + apply RotateAroundX_vertices.
    + apply RotateAroundY_vertices.
    + apply RotateAroundZ_vertices.
Qed.

(** C8: the angle is multiplied by [M_PI / 180], which takes 90 to the
    binary64 value of pi / 2; with the cosine and the sine of that
    product, computed once, every vertex of the buffer is rotated:
    around X [y' = cos y - sin z], [z' = sin y + cos z]; around Y
    [x' = cos x + sin z], [z' = - sin x + cos z]; around Z
    [x' = cos x + sin y], [y' = - sin x + cos y]; the third component is
    kept.  A buffer of fewer than 3 coordinates is returned as it is.
    With a math library that rounds the cosine and the sine of pi / 2
    correctly, 90 degrees around Z takes (1, 0, 0) to within 1e-10 of
    (0, -1, 0). *)
Theorem C8_rotate `{libm : LibM} (vs : list vertex) (angle : float) :
  (90 * kRadianToDegree)%float = (M_PI / 2)%float
  ∧ RotateStrategy_Transform (coords_of vs) angle kX
    = Done (coords_of (map (rot_x (cos (angle * kRadianToDegree)%float)
                                  (sin (angle * kRadianToDegree)%float)) vs))
  ∧ RotateStrategy_Transform (coords_of vs) angle kY
    = Done (coords_of (map (rot_y (cos (angle * kRadianToDegree)%float)
                                  (sin (angle * kRadianToDegree)%float)) vs))
  ∧ RotateStrategy_Transform (coords_of vs) angle kZ
    = Done (coords_of (map (rot_z (cos (angle * kRadianToDegree)%float)
                                  (sin (angle * kRadianToDegree)%float)) vs))
  ∧ (∀ (v : vec) axis, (length v < 3)%nat →
       RotateStrategy_Transform v angle axis = Done v)
  ∧ (cos (90 * kRadianToDegree)%float = cos_quarter_turn →
     sin (90 * kRadianToDegree)%float = 1%float →
     ∃ x' y' z',
       RotateStrategy_Transform [1%float; 0%float; 0%float] 90%float kZ
       = Done [x'; y'; z']
       ∧ near x' 0%float ∧ near y' (-1)%float ∧ z' = 0%float).
Proof.
  split_and!.
  - by vm_compute.
  - apply (RotateStrategy_Transform_vertices vs angle kX).
  - apply (RotateStrategy_Transform_vertices vs angle kY).
  - apply (RotateStrategy_Transform_vertices vs angle kZ).
  - intros v axis Hlt. unfold RotateStrategy_Transform.
    by destruct (decide (length v < 3)%nat).
  - intros Hcos Hsin.
    pose proof (RotateStrategy_Transform_vertices
                  [(1%float, 0%float, 0%float)] 90%float kZ) as Hrot.
    cbv zeta in Hrot. rewrite Hcos, Hsin in Hrot.
    eexists _, _, _. split; [exact Hrot|].
    split_and!; by vm_compute.
Qed.

(** The quarter turn with the table of the two values. *)
Lemma C8_quarter_turn_witness :
  ∃ x' y' z',
    RotateStrategy_Transform (libm := table_libm)
      [1%float; 0%float; 0%float] 90%float kZ = Done [x'; y'; z']
    ∧ near x' 0%float ∧ near y' (-1)%float ∧ z' = 0%float.
Proof.
  apply (C8_rotate (libm := table_libm) [] 90%float); reflexivity.
Defined.

(** ** Totality of the transformations *)

Lemma move_body_length (step : float) (j : nat) (u u' : vec) :
  move_body step j u = Some u' → length u' = length u.
Proof.
  unfold move_body. destruct (u !! j); simpl; [|done].
  intros [= <-]. by rewrite length_insert.
Qed.

Lemma rotate_x_body_length (c s : float) (j : nat) (u u' : vec) :
  rotate_x_body c s j u = Some u' → length u' = length u.
Proof.
  unfold rotate_x_body. destruct (u !! j); simpl; [|done].
  destruct (u !! (j + 1)%nat); simpl; [|done].
  intros [= <-]. by rewrite !length_insert.
Qed.

Lemma rotate_y_body_length (c s : float) (j : nat) (u u' : vec) :
  rotate_y_body c s j u = Some u' → length u' = length u.
Proof.
  unfold rotate_y_body. destruct (u !! j); simpl; [|done].
  destruct (u !! (j + 2)%nat); simpl; [|done].
  intros [= <-]. by rewrite !length_insert.
Qed.

Lemma rotate_z_body_length (c s : float) (j : nat) (u u' : vec) :
  rotate_z_body c s j u = Some u' → length u' = length u.
Proof.
  unfold rotate_z_body. destruct (u !! j); simpl; [|done].
  destruct (u !! (j + 1)%nat); simpl; [|done].
  intros [= <-]. by rewrite !length_insert.
Qed.

(** The fuel given to the loops is enough: no transformation stops for
    lack of it. *)
Lemma Transform_fuel `{libm : LibM} (strategy_type : Z) (value : float)
    (axis : transformation_t) (m : Model) :
  Transform strategy_type value axis m ≠ OutOfFuel.
Proof.
  unfold Transform. destruct (vertex_coord_ m) as [|c0 v0] eqn:Hv; [done|].
  set (v := c0 :: v0).
  assert (∀ s, Strategy_Transform s v value axis ≠ OutOfFuel) as Hs.
  { intros [| |]; simpl.
    - apply stride3_fuel; [apply move_body_length | lia].
    - unfold RotateStrategy_Transform. destruct (decide _); [done|].
      destruct axis; apply stride3_fuel;
        eauto using rotate_x_body_length, rotate_y_body_length,
          rotate_z_body_length; lia.
    - unfold ScaleStrategy_Transform. by destruct (_ <=? _)%float. }
  assert (∀ s, match PerformTransformation
                       (SetStrategy (transformation_model_ m) s) v value axis
               with
               | Done u =>
                   Done {| filename_ := filename_ m;
                           vertex_coord_ := u;
                           vertex_index_ := vertex_index_ m;
                           error_code_ := error_code_ m;
                           transformation_model_ :=
                             SetStrategy (transformation_model_ m) s |}
               | OutOfRange => OutOfRange
               | OutOfFuel => OutOfFuel
               end ≠ OutOfFuel) as Hp.
  { intros s. unfold PerformTransformation. simpl.
    specialize (Hs s). by destruct (Strategy_Transform s v value axis). }
  destruct strategy_type as [|p|p]; [apply Hp| |done].
  destruct p as [[| |]|[| |]|]; try done; apply Hp.
Qed.

(** [MoveStrategy] reads and writes inside the vector only. *)
Lemma stride3_move_done (step : float) (fuel i : nat) (v : vec) :
  (length v ≤ i + fuel)%nat →
  ∃ v', stride3 (move_body step) fuel i v = Done v' ∧ length v' = length v.
Proof.
  revert v i. induction fuel as [|fuel IH]; intros v i Hfuel; simpl.
  - destruct (decide _); [lia | by exists v].
  - destruct (decide (i < length v)%nat) as [Hlt|]; [|by exists v].
    unfold move_body at 1.
    destruct (lookup_lt_is_Some_2 v i Hlt) as [c ->]. simpl.
    destruct (IH (<[i:=(c + step)%float]> v) (i + 3)%nat) as (v' & -> & Hlen).
    { rewrite length_insert. lia. }
    exists v'. split; [done|]. by rewrite Hlen, length_insert.
Qed.

Lemma MoveStrategy_Transform_done (v : vec) (step : float)
    (axis : transformation_t) :
  ∃ v', MoveStrategy_Transform v step axis = Done v' ∧ length v' = length v.
Proof. apply stride3_move_done. lia. Qed.

(** ** Instances of the theorems with hypotheses *)

(** The source of the test for incorrect data: its first line sets the
    error, its second line stays in the stream, and parsing again
    changes nothing. *)
Lemma C4_error_is_sticky_witness :
  error_code_ (load broken_source) ≠ kNoError
  ∧ Parser (libc := decimal_libc) ∅ (load broken_source) = load broken_source
  ∧ parse_lines (libc := decimal_libc) (SetFileName "m.obj" initial_model)
      ["v invalid data"; "f abc def"]%string
    = (load broken_source, ["f abc def"%string]).
Proof.
  assert (error_code_ (load broken_source) ≠ kNoError) as He
    by (vm_compute; discriminate).
  destruct (C4_error_is_sticky (libc := decimal_libc) ∅ (load broken_source)
              ["f abc def"%string] He) as (_ & Hline & _ & HP & _).
  split_and!; [exact He | exact HP |].
  apply Hline; reflexivity.
Defined.

(** Kind 3 on the loaded quad. *)
Lemma C10_transform_unknown_kind_witness :
  3 ≠ kMove ∧ 3 ≠ kRotate ∧ 3 ≠ kScale
  ∧ Transform (libm := table_libm) 3 1%float kX (load quad_source)
    = Done (load quad_source).
Proof.
  split_and!; [discriminate..|].
  apply (C10_transform_unknown_kind (libm := table_libm)); discriminate.
Defined.

(** ** The buffer of a loaded model holds whole vertices *)

Section WholeVertices.
Context `{libc : LibC}.

Lemma coords_of_app (vs ws : list vertex) :
  coords_of (vs ++ ws) = coords_of vs ++ coords_of ws.
Proof. unfold coords_of. apply flat_map_app. Qed.

Lemma map_coords_of (f : float → float) (vs : list vertex) :
  map f (coords_of vs)
  = coords_of (map (λ v : vertex, (f v.1.1, f v.1.2, f v.2)) vs).
Proof. induction vs as [|v vs IH]; simpl; [done | by rewrite IH]. Qed.

Lemma VertexParser_whole (line : string) (m : Model) (vs : list vertex) :
  vertex_coord_ m = coords_of vs →
  ∃ ws, vertex_coord_ (VertexParser_ line m) = coords_of ws.
Proof.
  intros Hm. unfold VertexParser_.
  destruct (sscanf_c_lf_lf_lf _ _ _ _ _) as [parsed [[[dummy x] y] z]].
  destruct (decide _); simpl; [|by exists vs].
  exists (vs ++ [(x, y, z)]). by rewrite coords_of_app, Hm.
Qed.

Lemma parse_line_whole (line : string) (m : Model) (vs : list vertex) :
  vertex_coord_ m = coords_of vs →
  ∃ ws, vertex_coord_ (parse_line line m) = coords_of ws.
Proof.
  intros Hm. unfold parse_line.
  destruct line as [|c0 [|c1 rest]]; [by exists vs..|].
  destruct (decide _); [by exists vs|].
  destruct (decide _); [by eapply VertexParser_whole|].
  destruct (decide _); [|by exists vs].
  exists vs. rewrite EdgesParser_spec. by destruct (decide _).
Qed.

Lemma parse_lines_whole (file : list string) (m : Model) (vs : list vertex) :
  vertex_coord_ m = coords_of vs →
  ∃ ws, vertex_coord_ (parse_lines m file).1 = coords_of ws.
Proof.
  revert m vs. induction file as [|line file IH]; intros m vs Hm; simpl.
  - by exists vs.
  - destruct (decide _); [|by exists vs].
    destruct (parse_line_whole line m vs Hm) as [ws Hws]. by eapply IH.
Qed.

Lemma Normalize_whole (m : Model) (vs : list vertex) :
  vertex_coord_ m = coords_of vs →
  ∃ ws, vertex_coord_ (Normalize_ m) = coords_of ws.
Proof.
  intros Hm.
  assert (∀ f, ∃ ws, vertex_coord_ (set_coord (map f (vertex_coord_ m)) m)
                     = coords_of ws) as Hmap.
  { intros f. simpl. rewrite Hm, map_coords_of. by eexists. }
  unfold Normalize_.
  destruct (vertex_coord_ m) as [|c v] eqn:Hv; [exists vs; by rewrite Hv|].
  destruct (_ <? _)%float; [apply Hmap | exists vs; by rewrite Hv].
Qed.

(** After a load the coordinates are those of a list of vertices, so
    their number is a multiple of 3. *)
Lemma Parser_whole_vertices (fs : gmap string string) (path : string)
    (m0 : Model) :
  ∃ vs, vertex_coord_ (Parser fs (SetFileName path m0)) = coords_of vs
        ∧ length (vertex_coord_ (Parser fs (SetFileName path m0)))
          = (3 * length vs)%nat.
Proof.
  destruct (SetFileName_fields path m0) as (Hc & _).
  assert (∃ vs, vertex_coord_ (Parser fs (SetFileName path m0)) = coords_of vs)
    as [vs Hvs].
  { unfold Parser. destruct (decide _); [|exists []; by rewrite Hc].
    destruct (fs !! _) as [content|]; [|exists []; simpl; by rewrite Hc].
    destruct (parse_lines_whole (getlines "010" content)
                (SetFileName path m0) [] Hc) as [ws Hws].
    destruct (decide _); [by eapply Normalize_whole | by exists ws]. }
  exists vs. split; [done|]. by rewrite Hvs, length_coords_of.
Qed.
End WholeVertices.

(** On a buffer of whole vertices [Model::Transform] with kind [kRotate]
    rotates every vertex and makes no access outside the buffer. *)
Lemma Transform_rotate_vertices `{libm : LibM} (m : Model) (vs : list vertex)
    (angle : float) (axis : transformation_t) :
  vertex_coord_ m = coords_of vs →
  ∃ m',
    Transform kRotate angle axis m = Done m'
    ∧ vertex_coord_ m'
      = coords_of
          (map match axis with
               | kX => rot_x (cos (angle * kRadianToDegree)%float)
                             (sin (angle * kRadianToDegree)%float)
               | kY => rot_y (cos (angle * kRadianToDegree)%float)
                             (sin (angle * kRadianToDegree)%float)
               | kZ => rot_z (cos (angle * kRadianToDegree)%float)
                             (sin (angle * kRadianToDegree)%float)
               end vs)
    ∧ vertex_index_ m' = vertex_index_ m
    ∧ error_code_ m' = error_code_ m.
Proof.
  intros Hm. unfold Transform.
  destruct (vertex_coord_ m) as [|c v] eqn:Hv.
  - exists m. destruct vs as [|[[x y] z] vs]; [|done].
    rewrite Hv. by destruct axis.
  - simpl. unfold PerformTransformation. simpl. rewrite Hm.
    rewrite RotateStrategy_Transform_vertices. cbv zeta.
    eexists. split; [done|]. by destruct axis.
Qed.

(** * Further properties of the code *)

(** ** The move strategy *)

Section Move.
Local Open Scope nat_scope.

Local Ltac mod_lia := zify; Z.div_mod_to_equations; lia.

(** The loop started at [i] adds the step at [i], [i + 3], ... *)
Lemma stride3_move (step : float) (fuel i : nat) (v : vec) :
  length v ≤ i + fuel →
  stride3 (move_body step) fuel i v
  = Done (imap (λ j coord, if decide (i ≤ j ∧ (j - i) mod 3 = 0)
                           then (coord + step)%float else coord) v).
Proof.
  revert i v. induction fuel as [|fuel IH]; intros i v Hfuel.
  - cbn -[Nat.modulo]. destruct (decide (i < length v)); [lia|]. f_equal.
    apply list_eq. intros j. rewrite list_lookup_imap.
    destruct (v !! j) as [c|] eqn:Hj; [|done]. cbn -[Nat.modulo].
    apply lookup_lt_Some in Hj. destruct (decide _); [lia | done].
  - cbn -[Nat.modulo]. destruct (decide (i < length v)) as [Hlt|Hge].
    + unfold move_body at 1.
      destruct (lookup_lt_is_Some_2 v i Hlt) as [c Hc]. rewrite Hc. cbn -[Nat.modulo].
      rewrite IH by (rewrite length_insert; lia). f_equal.
      apply list_eq. intros j. rewrite !list_lookup_imap.
      destruct (decide (j = i)) as [->|Hne].
      * rewrite list_lookup_insert_eq by done. rewrite Hc. cbn -[Nat.modulo].
        destruct (decide (i + 3 ≤ i ∧ _)); [lia|].
        destruct (decide (i ≤ i ∧ _)) as [|Hn]; [done|].
        exfalso. apply Hn. split; [lia|]. by rewrite Nat.sub_diag.
      * rewrite list_lookup_insert_ne by done.
        destruct (v !! j) as [c'|]; [|done]. cbn -[Nat.modulo].
        destruct (decide (i + 3 ≤ j ∧ _)) as [H1|H1];
          destruct (decide (i ≤ j ∧ _)) as [H2|H2]; try done;
          exfalso; mod_lia.
    + f_equal. apply list_eq. intros j. rewrite list_lookup_imap.
      destruct (v !! j) as [c|] eqn:Hj; [|done]. cbn -[Nat.modulo].
      apply lookup_lt_Some in Hj. destruct (decide _); [lia | done].
Qed.

Lemma MoveStrategy_Transform_coords (v : vec) (step : float)
    (axis : transformation_t) :
  MoveStrategy_Transform v step axis
  = Done (move_coords step (axis_value axis) v).
Proof.
  unfold MoveStrategy_Transform. rewrite stride3_move by lia.
  f_equal. unfold move_coords. apply imap_ext. intros j c _.
  assert (axis_value axis < 3) by (destruct axis; simpl; lia).
  destruct (decide (axis_value axis ≤ j ∧ _)) as [H1|H1];
    destruct (decide (j mod 3 = axis_value axis)) as [H2|H2]; try done;
    exfalso; mod_lia.
Qed.
End Move.

Lemma Transform_move_coords `{libm : LibM} (m : Model) (step : float)
    (axis : transformation_t) :
  ∃ m',
    Transform kMove step axis m = Done m'
    ∧ vertex_coord_ m' = move_coords step (axis_value axis) (vertex_coord_ m)
    ∧ vertex_index_ m' = vertex_index_ m
    ∧ error_code_ m' = error_code_ m.
Proof.
  unfold Transform. destruct (vertex_coord_ m) as [|c u] eqn:Hv.
  - exists m. by rewrite Hv.
  - cbn -[move_coords MoveStrategy_Transform].
    unfold PerformTransformation. cbn -[move_coords MoveStrategy_Transform].
    rewrite MoveStrategy_Transform_coords. by eexists.
Qed.

(** X1: [MoveStrategy::Transform] never reads outside the vector,
    whatever its size: it adds the step to the coordinates at the
    positions [j] with [j mod 3 = axis] and leaves the others as they
    are; through [Model::Transform] with kind [kMove] the edges and the
    error code are kept. *)
Theorem X1_move_adds_step_on_axis `{libm : LibM} (v : vec) (m : Model)
    (step : float) (axis : transformation_t) :
  MoveStrategy_Transform v step axis = Done (move_coords step (axis_value axis) v)
  ∧ ∃ m',
      Transform kMove step axis m = Done m'
      ∧ vertex_coord_ m' = move_coords step (axis_value axis) (vertex_coord_ m)
      ∧ vertex_index_ m' = vertex_index_ m
      ∧ error_code_ m' = error_code_ m.
Proof.
  split; [apply MoveStrategy_Transform_coords | apply Transform_move_coords].
Qed.

(** ** What a transformation keeps *)

Lemma stride3_length (body : nat → vec → option vec) (fuel i : nat)
    (v v' : vec) :
  (∀ j u u', body j u = Some u' → length u' = length u) →
  stride3 body fuel i v = Done v' → length v' = length v.
Proof.
  intros Hlen. revert i v.
  induction fuel as [|fuel IH]; intros i v; simpl.
  - destruct (decide _); [done|]. by intros [= <-].
  - destruct (decide _); [|by intros [= <-]].
    destruct (body i v) as [u|] eqn:Hb; [|done].
    intros Hs%IH. rewrite Hs. by eapply Hlen.
Qed.

Lemma Strategy_Transform_length `{libm : LibM} (s : TransformationStrategy)
    (v v' : vec) (value : float) (axis : transformation_t) :
  Strategy_Transform s v value axis = Done v' → length v' = length v.
Proof.
  destruct s; simpl.
  - apply stride3_length, move_body_length.
  - unfold RotateStrategy_Transform. destruct (decide _); [by intros [= <-]|].
    destruct axis; apply stride3_length;
      eauto using rotate_x_body_length, rotate_y_body_length,
        rotate_z_body_length.
  - unfold ScaleStrategy_Transform.
    destruct (_ <=? _)%float; intros [= <-]; [done|]. by rewrite length_map.
Qed.

Lemma Transform_frame `{libm : LibM} (strategy_type : Z) (value : float)
    (axis : transformation_t) (m m' : Model) :
  Transform strategy_type value axis m = Done m' →
  length (vertex_coord_ m') = length (vertex_coord_ m)
  ∧ vertex_index_ m' = vertex_index_ m
  ∧ error_code_ m' = error_code_ m
  ∧ filename_ m' = filename_ m.
Proof.
  unfold Transform. destruct (vertex_coord_ m) as [|c u] eqn:Hv.
  { intros [= <-]. by rewrite Hv. }
  assert (∀ s,
    match PerformTransformation (SetStrategy (transformation_model_ m) s)
            (c :: u) value axis with
    | Done v =>
        Done {| filename_ := filename_ m; vertex_coord_ := v;
                vertex_index_ := vertex_index_ m;
                error_code_ := error_code_ m;
                transformation_model_ :=
                  SetStrategy (transformation_model_ m) s |}
    | OutOfRange => OutOfRange
    | OutOfFuel => OutOfFuel
    end = Done m' →
    length (vertex_coord_ m') = length (c :: u)
    ∧ vertex_index_ m' = vertex_index_ m
    ∧ error_code_ m' = error_code_ m
    ∧ filename_ m' = filename_ m) as Hs.
  { intros s. unfold PerformTransformation, SetStrategy.
    cbn [strategy_].
    destruct (Strategy_Transform s (c :: u) value axis) as [v| |] eqn:Ht;
      [|done..].
    intros [= <-]. simpl. split; [|done].
    by apply Strategy_Transform_length in Ht. }
  destruct strategy_type as [|p|p].
  - apply Hs.
  - destruct p as [[| |]|[| |]|]; try apply Hs;
      intros [= <-]; by rewrite Hv.
  - intros [= <-]. by rewrite Hv.
Qed.

(** Besides the coordinates, [Transform] writes the strategy: on a
    buffer that is not empty the kinds 0, 1 and 2 install their strategy;
    on an empty buffer, or for another kind, nothing is written. *)
Lemma Transform_strategy `{libm : LibM} (strategy_type : Z) (value : float)
    (axis : transformation_t) (m m' : Model) :
  Transform strategy_type value axis m = Done m' →
  (vertex_coord_ m ≠ [] →
     (strategy_type = kMove →
        strategy_ (transformation_model_ m') = Some MoveStrategy)
     ∧ (strategy_type = kRotate →
          strategy_ (transformation_model_ m') = Some RotateStrategy)
     ∧ (strategy_type = kScale →
          strategy_ (transformation_model_ m') = Some ScaleStrategy))
  ∧ (vertex_coord_ m = []
     ∨ (strategy_type ≠ kMove ∧ strategy_type ≠ kRotate
        ∧ strategy_type ≠ kScale) →
     m' = m).
Proof.
  unfold kMove, kRotate, kScale, Transform.
  destruct (vertex_coord_ m) as [|c u] eqn:Hv.
  { intros [= <-]. split; [done|]. by intros _. }
  assert (∀ s,
    match PerformTransformation (SetStrategy (transformation_model_ m) s)
            (c :: u) value axis with
    | Done v =>
        Done {| filename_ := filename_ m; vertex_coord_ := v;
                vertex_index_ := vertex_index_ m;
                error_code_ := error_code_ m;
                transformation_model_ :=
                  SetStrategy (transformation_model_ m) s |}
    | OutOfRange => OutOfRange
    | OutOfFuel => OutOfFuel
    end = Done m' →
    strategy_ (transformation_model_ m') = Some s) as Hs.
  { intros s.
    destruct (PerformTransformation _ (c :: u) value axis); [|done..].
    by intros [= <-]. }
  destruct strategy_type as [|p|p].
  - intros Ht%Hs. split; [intros _; by split_and!|].
    intros [?|(? & _)]; done.
  - destruct p as [[| |]|[| |]|].
    all: try (intros [= <-]; split;
              [intros _; by split_and! | by intros _]).
    + intros Ht%Hs. split; [intros _; by split_and!|].
      intros [?|(_ & _ & ?)]; done.
    + intros Ht%Hs. split; [intros _; by split_and!|].
      intros [?|(_ & ? & _)]; done.
  - intros [= <-]. split; [intros _; by split_and! | by intros _].
Qed.

(** X2: whatever the kind, the value and the axis, a transformation
    that completes keeps the number of coordinates, the edge sequence,
    the error code and the file name.  Besides the coordinates it writes
    one field, the strategy: on a buffer that is not empty the kinds 0,
    1 and 2 leave the move, rotate and scale strategy installed; on an
    empty buffer, or for another kind, the model is the one given. *)
Theorem X2_transform_frame `{libm : LibM} (strategy_type : Z) (value : float)
    (axis : transformation_t) (m m' : Model) :
  Transform strategy_type value axis m = Done m' →
  length (vertex_coord_ m') = length (vertex_coord_ m)
  ∧ vertex_index_ m' = vertex_index_ m
  ∧ error_code_ m' = error_code_ m
  ∧ filename_ m' = filename_ m
  ∧ (vertex_coord_ m ≠ [] →
       (strategy_type = kMove →
          strategy_ (transformation_model_ m') = Some MoveStrategy)
       ∧ (strategy_type = kRotate →
            strategy_ (transformation_model_ m') = Some RotateStrategy)
       ∧ (strategy_type = kScale →
            strategy_ (transformation_model_ m') = Some ScaleStrategy))
  ∧ (vertex_coord_ m = []
     ∨ (strategy_type ≠ kMove ∧ strategy_type ≠ kRotate
        ∧ strategy_type ≠ kScale) →
     m' = m).
Proof.
  intros Ht.
  destruct (Transform_frame _ _ _ _ _ Ht) as (Hl & Hi & He & Hf).
  destruct (Transform_strategy _ _ _ _ _ Ht) as [Hs Hid].
  by split_and!.
Qed.

(** Scaling the loaded quad by 2: the strategy, not set by the load,
    is the scale strategy afterwards. *)
Lemma X2_transform_frame_witness :
  strategy_ (transformation_model_ (load quad_source)) = None
  ∧ ∃ m',
    Transform (libm := table_libm) kScale 2%float kX (load quad_source) = Done m'
    ∧ length (vertex_coord_ m') = length (vertex_coord_ (load quad_source))
    ∧ vertex_index_ m' = vertex_index_ (load quad_source)
    ∧ error_code_ m' = error_code_ (load quad_source)
    ∧ filename_ m' = filename_ (load quad_source)
    ∧ strategy_ (transformation_model_ m') = Some ScaleStrategy.
Proof.
  split; [vm_compute; reflexivity|].
  eexists. split; [vm_compute; reflexivity|].
  destruct (X2_transform_frame (libm := table_libm) kScale 2%float kX
              (load quad_source) _ eq_refl)
    as (Hl & Hi & He & Hf & Hs & _).
  split_and!; [exact Hl|exact Hi|exact He|exact Hf|].
  apply Hs; [|reflexivity]. vm_compute. discriminate.
Defined.

(** ** Buffers of whole vertices *)

Section Whole.
Local Open Scope nat_scope.

Lemma coords_of_chunks (n : nat) (v : vec) :
  length v = 3 * n → ∃ vs, v = coords_of vs ∧ length vs = n.
Proof.
  revert v. induction n as [|n IH]; intros v Hlen.
  - exists []. by destruct v.
  - destruct v as [|x [|y [|z v]]]; simpl in Hlen; try lia.
    destruct (IH v) as (vs & -> & Hn); [lia|].
    exists ((x, y, z) :: vs). split; [done | simpl; lia].
Qed.

Lemma whole_coords_of (v : vec) : whole v ↔ ∃ vs, v = coords_of vs.
Proof.
  unfold whole. split.
  - intros Hmod. destruct (coords_of_chunks (length v / 3) v) as (vs & Hvs & _).
    + zify; Z.div_mod_to_equations; lia.
    + by exists vs.
  - intros [vs ->]. rewrite length_coords_of.
    zify; Z.div_mod_to_equations; lia.
Qed.
End Whole.

Lemma Transform_whole_done `{libm : LibM} (strategy_type : Z) (value : float)
    (axis : transformation_t) (m : Model) :
  whole (vertex_coord_ m) →
  ∃ m', Transform strategy_type value axis m = Done m'.
Proof.
  intros [vs Hvs]%whole_coords_of.
  destruct (decide (strategy_type = kMove)) as [->|H0].
  { destruct (Transform_move_coords m value axis) as (m' & Hm' & _).
    by exists m'. }
  destruct (decide (strategy_type = kRotate)) as [->|H1].
  { destruct (Transform_rotate_vertices m vs value axis Hvs) as (m' & Hm' & _).
    by exists m'. }
  destruct (decide (strategy_type = kScale)) as [->|H2].
  { unfold Transform. destruct (vertex_coord_ m); [by eexists|].
    simpl. unfold PerformTransformation. simpl.
    unfold ScaleStrategy_Transform. destruct (_ <=? _)%float; by eexists. }
  exists m. unfold kMove, kRotate, kScale, Transform in *.
  destruct (vertex_coord_ m); [done|].
  destruct strategy_type as [|p|p]; [done| |done].
  destruct p as [[| |]|[| |]|]; done.
Qed.

(** X3: on a buffer of whole vertices every transformation completes,
    without any access outside the buffer, and leaves a buffer of whole
    vertices of the same size, so that the next transformation
    completes as well. *)
Theorem X3_transform_whole `{libm : LibM} (strategy_type : Z) (value : float)
    (axis : transformation_t) (m : Model) :
  whole (vertex_coord_ m) →
  ∃ m',
    Transform strategy_type value axis m = Done m'
    ∧ whole (vertex_coord_ m')
    ∧ length (vertex_coord_ m') = length (vertex_coord_ m).
Proof.
  intros Hw.
  destruct (Transform_whole_done strategy_type value axis m Hw) as [m' Hm'].
  exists m'. split; [done|].
  destruct (Transform_frame _ _ _ _ _ Hm') as (Hlen & _).
  split; [|done]. unfold whole in *. by rewrite Hlen.
Qed.

(** A quarter turn of the loaded quad around Z. *)
Lemma X3_transform_whole_witness :
  whole (vertex_coord_ (load quad_source))
  ∧ ∃ m',
      Transform (libm := table_libm) kRotate 90%float kZ (load quad_source)
      = Done m'
      ∧ whole (vertex_coord_ m')
      ∧ length (vertex_coord_ m') = length (vertex_coord_ (load quad_source)).
Proof.
  assert (whole (vertex_coord_ (load quad_source))) as Hw
    by (vm_compute; reflexivity).
  split; [exact Hw|].
  exact (X3_transform_whole (libm := table_libm) kRotate 90%float kZ
           (load quad_source) Hw).
Defined.

(** ** Rotations of a buffer that is not made of whole vertices *)

Section RotateBounds.
Local Open Scope nat_scope.

Local Ltac mod_lia := zify; Z.div_mod_to_equations; lia.

(** Every vector is a list of whole vertices followed by fewer than
    three coordinates. *)
Lemma coords_of_tail (v : vec) :
  ∃ vs tail, v = coords_of vs ++ tail ∧ length tail < 3.
Proof.
  destruct (coords_of_chunks (length v / 3) (take (3 * (length v / 3)) v))
    as (vs & Hvs & _).
  { rewrite length_take. mod_lia. }
  exists vs, (drop (3 * (length v / 3)) v). split.
  - by rewrite <- Hvs, take_drop.
  - rewrite length_drop. mod_lia.
Qed.

(** The loop over the whole vertices, with the coordinates that follow
    them left for the steps that remain. *)
Lemma stride3_vertices_tail (body : nat → vec → option vec)
    (f : vertex → vertex) (off : nat) :
  off < 3 →
  (∀ pre v post,
     body (length pre + off) (pre ++ coords_of [v] ++ post)
     = Some (pre ++ coords_of [f v] ++ post)) →
  ∀ todo pre k tail,
    stride3 body (length todo + k) (length pre + off)
      (pre ++ coords_of todo ++ tail)
    = stride3 body k (length (pre ++ coords_of (map f todo)) + off)
        ((pre ++ coords_of (map f todo)) ++ tail).
Proof.
  intros Hoff Hbody. induction todo as [|v todo IH]; intros pre k tail.
  - simpl. by rewrite app_nil_r.
  - change (coords_of (v :: todo)) with (coords_of [v] ++ coords_of todo).
    change (length (v :: todo) + k) with (S (length todo + k)).
    simpl stride3.
    destruct (decide _) as [_|Hn].
    2:{ exfalso. apply Hn. rewrite !length_app. simpl. lia. }
    pose proof (Hbody pre v (coords_of todo ++ tail)) as Hb.
    simpl in Hb. rewrite <- !app_assoc. simpl. rewrite Hb.
    pose proof (IH (pre ++ coords_of [f v]) k tail) as HI.
    rewrite !length_app in HI. simpl in HI. rewrite <- !app_assoc in HI.
    simpl in HI.
    replace (length pre + 3 + off) with (length pre + off + 3) in HI by lia.
    rewrite HI. rewrite !length_app. simpl.
    by replace (length pre + S (S (S (length (coords_of (map f todo)))))
                + off)
      with (length pre + 3 + length (coords_of (map f todo)) + off) by lia.
Qed.

Lemma stride3_end (body : nat → vec → option vec) (fuel i : nat) (v : vec) :
  length v ≤ i → stride3 body fuel i v = Done v.
Proof.
  intros Hle. destruct fuel; simpl; (destruct (decide _); [lia | done]).
Qed.

Lemma stride3_step (body : nat → vec → option vec) (fuel i : nat) (v : vec) :
  i < length v →
  stride3 body (S fuel) i v =
    match body i v with
    | Some v' => stride3 body fuel (i + 3) v'
    | None => OutOfRange
    end.
Proof. intros Hlt. simpl. by destruct (decide _). Qed.

(** The outcome of a loop that has reached the coordinates after the
    last whole vertex. *)
Lemma RotateAroundZ_tail (c s : float) (vs : list vertex) (tail : vec) :
  length tail < 3 →
  RotateAroundZ_ (coords_of vs ++ tail) c s = OutOfRange ↔ length tail = 1.
Proof.
  intros Htail. unfold RotateAroundZ_.
  rewrite length_app, length_coords_of.
  replace (3 * length vs + length tail)
    with (length vs + (2 * length vs + length tail)) by lia.
  rewrite (stride3_vertices_tail (rotate_z_body c s) (rot_z c s) 0 ltac:(lia)
             (rotate_z_body_vertex c s) vs [] _ tail).
  simpl app. set (pre := coords_of (map (rot_z c s) vs)).
  rewrite Nat.add_0_r.
  destruct tail as [|a [|b [|d tail]]]; simpl in Htail; [| | |lia].
  - rewrite stride3_end by (rewrite length_app; simpl; lia).
    split; [done | simpl; lia].
  - replace (2 * length vs + length [a]) with (S (2 * length vs))
      by (simpl; lia).
    rewrite stride3_step by (rewrite length_app; simpl; lia).
    unfold rotate_z_body.
    rewrite (list_lookup_middle pre [] a (length pre) eq_refl). simpl.
    rewrite lookup_ge_None_2 by (rewrite length_app; simpl; lia).
    done.
  - replace (2 * length vs + length [a; b]) with (S (2 * length vs + 1))
      by (simpl; lia).
    rewrite stride3_step by (rewrite length_app; simpl; lia).
    unfold rotate_z_body.
    rewrite (list_lookup_middle pre [b] a (length pre) eq_refl). simpl.
    rewrite lookup_app_r by lia.
    replace (length pre + 1 - length pre) with 1 by lia. simpl.
    rewrite stride3_end
      by (rewrite !length_insert, length_app; simpl; lia).
    split; [done | lia].
Qed.

Lemma RotateAroundY_tail (c s : float) (vs : list vertex) (tail : vec) :
  length tail < 3 →
  RotateAroundY_ (coords_of vs ++ tail) c s = OutOfRange ↔ length tail ≠ 0.
Proof.
  intros Htail. unfold RotateAroundY_.
  rewrite length_app, length_coords_of.
  replace (3 * length vs + length tail)
    with (length vs + (2 * length vs + length tail)) by lia.
  rewrite (stride3_vertices_tail (rotate_y_body c s) (rot_y c s) 0 ltac:(lia)
             (rotate_y_body_vertex c s) vs [] _ tail).
  simpl app. set (pre := coords_of (map (rot_y c s) vs)).
  rewrite Nat.add_0_r.
  destruct tail as [|a [|b [|d tail]]]; simpl in Htail; [| | |lia].
  - rewrite stride3_end by (rewrite length_app; simpl; lia).
    split; [done | simpl; lia].
  - replace (2 * length vs + length [a]) with (S (2 * length vs))
      by (simpl; lia).
    rewrite stride3_step by (rewrite length_app; simpl; lia).
    unfold rotate_y_body.
    rewrite (list_lookup_middle pre [] a (length pre) eq_refl). simpl.
    rewrite lookup_ge_None_2 by (rewrite length_app; simpl; lia).
    done.
  - replace (2 * length vs + length [a; b]) with (S (2 * length vs + 1))
      by (simpl; lia).
    rewrite stride3_step by (rewrite length_app; simpl; lia).
    unfold rotate_y_body.
    rewrite (list_lookup_middle pre [b] a (length pre) eq_refl). simpl.
    rewrite lookup_ge_None_2 by (rewrite length_app; simpl; lia).
    done.
Qed.

Lemma RotateAroundX_tail (c s : float) (vs : list vertex) (tail : vec) :
  length tail < 3 →
  RotateAroundX_ (coords_of vs ++ tail) c s = OutOfRange ↔ length tail = 2.
Proof.
  intros Htail. unfold RotateAroundX_.
  rewrite length_app, length_coords_of.
  replace (3 * length vs + length tail)
    with (length vs + (2 * length vs + length tail)) by lia.
  pose proof (stride3_vertices_tail (rotate_x_body c s) (rot_x c s) 1
                ltac:(lia) (rotate_x_body_vertex c s) vs []
                (2 * length vs + length tail) tail) as Hs.
  rewrite !app_nil_l in Hs. change (length (@nil float) + 1) with 1 in Hs.
  rewrite Hs. clear Hs. set (pre := coords_of (map (rot_x c s) vs)).
  destruct tail as [|a [|b [|d tail]]]; simpl in Htail; [| | |lia].
  - rewrite stride3_end by (rewrite length_app; simpl; lia).
    split; [done | simpl; lia].
  - rewrite stride3_end by (rewrite length_app; simpl; lia).
    split; [done | simpl; lia].
  - replace (2 * length vs + length [a; b]) with (S (2 * length vs + 1))
      by (simpl; lia).
    rewrite stride3_step by (rewrite length_app; simpl; lia).
    unfold rotate_x_body.
    rewrite !lookup_app_r by lia.
    replace (length pre + 1 - length pre) with 1 by lia.
    replace (length pre + 1 + 1 - length pre) with 2 by lia.
    done.
Qed.

Lemma length_whole_tail (vs : list vertex) (tail : vec) :
  length tail < 3 →
  length (coords_of vs ++ tail) mod 3 = length tail.
Proof.
  intros Htail. rewrite length_app, length_coords_of. mod_lia.
Qed.

Lemma RotateStrategy_Transform_bounds `{libm : LibM} (v : vec) (angle : float)
    (axis : transformation_t) :
  RotateStrategy_Transform v angle axis = OutOfRange
  ↔ 3 ≤ length v
    ∧ match axis with
      | kX => length v mod 3 = 2
      | kY => length v mod 3 ≠ 0
      | kZ => length v mod 3 = 1
      end.
Proof.
  unfold RotateStrategy_Transform.
  destruct (decide (length v < 3)) as [Hlt|Hge]; [split; [done | lia]|].
  destruct (coords_of_tail v) as (vs & tail & -> & Htail).
  rewrite (length_whole_tail vs tail Htail).
  destruct axis.
  - rewrite RotateAroundX_tail by done. split; [split; [lia | tauto] | tauto].
  - rewrite RotateAroundY_tail by done. split; [split; [lia | tauto] | tauto].
  - rewrite RotateAroundZ_tail by done. split; [split; [lia | tauto] | tauto].
Qed.
End RotateBounds.


(** X4: [RotateStrategy::Transform] reads outside the vector exactly
    when the vector has at least 3 coordinates and its size is not a
    multiple of 3 in the way the axis is sensitive to: remainder 2 for
    X, remainder 1 or 2 for Y, remainder 1 for Z.  In every other case
    it completes. *)
Theorem X4_rotate_out_of_range `{libm : LibM} (v : vec) (angle : float)
    (axis : transformation_t) :
  (RotateStrategy_Transform v angle axis = OutOfRange
   ↔ (3 ≤ length v)%nat
     ∧ match axis with
       | kX => (length v mod 3 = 2)%nat
       | kY => (length v mod 3 ≠ 0)%nat
       | kZ => (length v mod 3 = 1)%nat
       end)
  ∧ (RotateStrategy_Transform v angle axis ≠ OutOfRange →
     ∃ v', RotateStrategy_Transform v angle axis = Done v'
           ∧ length v' = length v).
Proof.
  split; [apply RotateStrategy_Transform_bounds|].
  intros Hn.
  destruct (RotateStrategy_Transform v angle axis) as [v'| |] eqn:Hr.
  - exists v'. split; [done|].
    by apply (Strategy_Transform_length RotateStrategy v v' angle axis).
  - done.
  - exfalso. revert Hr. unfold RotateStrategy_Transform.
    destruct (decide _); [done|].
    destruct axis; apply stride3_fuel;
      eauto using rotate_x_body_length, rotate_y_body_length,
        rotate_z_body_length; lia.
Qed.

(** ** What the parser appends *)

Section ParserAppends.
Context `{libc : LibC}.

Lemma Normalize_coords (m : Model) :
  Normalize_ m = set_coord (normalize_coords (vertex_coord_ m)) m.
Proof.
  unfold Normalize_, normalize_coords, set_coord.
  destruct (vertex_coord_ m) as [|c v] eqn:Hv.
  - destruct m; simpl in *; by subst.
  - destruct (_ <? _)%float; [done|]. destruct m; simpl in *; by subst.
Qed.

(** A line that the loop accepts appends its contribution. *)
Lemma parse_line_contribution (line : string) (m : Model) :
  error_code_ (parse_line line m) = error_code_ m →
  parse_line line m
  = set_index (vertex_index_ m ++ line_edges line)
      (set_coord (vertex_coord_ m ++ line_coords line) m).
Proof.
  assert (m = set_index (vertex_index_ m ++ [])
                (set_coord (vertex_coord_ m ++ []) m)) as Hid.
  { unfold set_index, set_coord. simpl. rewrite !app_nil_r. by destruct m. }
  unfold parse_line, line_coords, line_edges.
  destruct line as [|c0 [|c1 rest]]; [by intros _..|].
  destruct (decide (c0 = "#"%char)) as [->|Hc].
  { intros _. by repeat (destruct (decide _) as [[? ?]|]; [done|]). }
  destruct (decide (c0 = "v"%char ∧ c1 = " "%char)) as [[-> ->]|Hv].
  { rewrite VertexParser_spec.
    destruct (decide ("v"%char = "f"%char ∧ _)) as [[? ?]|]; [done|].
    destruct (three_numbers (c_str rest)) as [[[x y] z]|]; simpl.
    - intros _. unfold set_index, set_coord. simpl. by rewrite app_nil_r.
    - intros He. simpl in He. unfold set_error, set_index, set_coord. simpl.
      rewrite <- He, !app_nil_r. done. }
  destruct (decide (c0 = "f"%char ∧ c1 = " "%char)) as [[-> ->]|Hf].
  { simpl drop2. rewrite EdgesParser_spec. intros _.
    destruct (decide _); unfold set_index, set_coord; simpl;
      rewrite ?app_nil_r; by destruct m. }
  by intros _.
Qed.

Lemma vertex_line_cases (line : string) :
  (∃ rest, line = String "v" (String " " rest))
  ∨ (∀ rest, line ≠ String "v" (String " " rest)).
Proof.
  destruct line as [|c0 [|c1 rest]]; [by right..|].
  destruct (decide (c0 = "v"%char ∧ c1 = " "%char)) as [[-> ->]|Hn].
  - left. by exists rest.
  - right. intros rest' [= -> -> _]. tauto.
Qed.

(** A line that sets the error appends nothing. *)
Lemma parse_line_failure (line : string) (m : Model) :
  error_code_ (parse_line line m) ≠ error_code_ m →
  bad_vertex_line line ∧ parse_line line m = set_error kIncorrectData m.
Proof.
  intros He. destruct (vertex_line_cases line) as [[rest ->]|Hnv].
  - rewrite parse_line_vertex, VertexParser_spec in *.
    destruct (three_numbers (c_str rest)) as [[[x y] z]|] eqn:Ht; [done|].
    split; [by exists rest | done].
  - exfalso. by apply He, parse_line_error.
Qed.

Lemma not_bad_vertex_line (line : string) (m : Model) :
  ¬ bad_vertex_line line → error_code_ (parse_line line m) = error_code_ m.
Proof.
  intros Hok.
  destruct (decide (error_code_ (parse_line line m) = error_code_ m)); [done|].
  by destruct (parse_line_failure line m).
Qed.

(** The buffers after the loop, when it ends without an error. *)
Lemma parse_lines_success (file : list string) (m : Model) :
  error_code_ m = kNoError →
  error_code_ (parse_lines m file).1 = kNoError →
  (parse_lines m file).1
  = set_index (vertex_index_ m ++ flat_map line_edges file)
      (set_coord (vertex_coord_ m ++ flat_map line_coords file) m).
Proof.
  revert m. induction file as [|line file IH]; intros m Hm Hok; simpl in *.
  - unfold set_index, set_coord. simpl. rewrite !app_nil_r. by destruct m.
  - destruct (decide (error_code_ m = kNoError)); [|done].
    assert (error_code_ (parse_line line m) = kNoError) as Hl.
    { destruct (decide (error_code_ (parse_line line m) = kNoError)); [done|].
      by rewrite parse_lines_error in Hok. }
    rewrite IH by done.
    rewrite parse_line_contribution by congruence.
    unfold set_index, set_coord. simpl. by rewrite <- !app_assoc.
Qed.

(** The loop stops at the first vertex line whose numbers cannot be
    read; it has then appended what the lines before it contribute. *)
Lemma parse_lines_failure (file : list string) (m : Model) :
  error_code_ m = kNoError →
  error_code_ (parse_lines m file).1 ≠ kNoError →
  ∃ pre bad post,
    file = pre ++ bad :: post
    ∧ Forall (λ line, ¬ bad_vertex_line line) pre
    ∧ bad_vertex_line bad
    ∧ parse_lines m file
      = (set_error kIncorrectData
           (set_index (vertex_index_ m ++ flat_map line_edges pre)
              (set_coord (vertex_coord_ m ++ flat_map line_coords pre) m)),
         post).
Proof.
  revert m. induction file as [|line file IH]; intros m Hm Hbad; simpl in *.
  - done.
  - destruct (decide (error_code_ m = kNoError)); [|done].
    destruct (decide (error_code_ (parse_line line m) = kNoError)) as [Hl|Hl].
    + destruct (IH _ Hl Hbad) as (pre & bad & post & -> & Hpre & Hb & Hres).
      exists (line :: pre), bad, post. split_and!; [done| |done|].
      * constructor; [|done]. intros Hline.
        destruct Hline as (rest & -> & Hnone).
        rewrite parse_line_vertex, VertexParser_spec, Hnone in Hl. done.
      * rewrite Hres. rewrite parse_line_contribution by congruence.
        unfold set_error, set_index, set_coord. simpl.
        by rewrite <- !app_assoc.
    + destruct (parse_line_failure line m) as [Hb Hres]; [congruence|].
      exists [], line, file. split_and!; [done|constructor|done|].
      rewrite parse_lines_error by done. rewrite Hres.
      unfold set_error, set_index, set_coord. simpl.
      by rewrite !app_nil_r.
Qed.
Lemma parse_lines_success_lines (file : list string) (m : Model) :
  error_code_ m = kNoError →
  error_code_ (parse_lines m file).1 = kNoError →
  Forall (λ line, ¬ bad_vertex_line line) file.
Proof.
  revert m. induction file as [|line file IH]; intros m Hm Hok; simpl in *.
  - constructor.
  - destruct (decide (error_code_ m = kNoError)); [|done].
    assert (error_code_ (parse_line line m) = kNoError) as Hl.
    { destruct (decide (error_code_ (parse_line line m) = kNoError)); [done|].
      by rewrite parse_lines_error in Hok. }
    constructor; [|by eapply IH].
    intros (rest & -> & Hnone).
    rewrite parse_line_vertex, VertexParser_spec, Hnone in Hl. done.
Qed.

(** The outcome of a load, by cases on the path, the file system and
    the lines of the file. *)
Lemma Parser_cases (fs : gmap string string) (path : string) (m0 : Model) :
  (¬ spec_valid_path path
   ∧ Parser fs (SetFileName path m0) = SetFileName path m0
   ∧ error_code_ (SetFileName path m0) = kFileWrongExtension)
  ∨ (spec_valid_path path ∧ fs !! path = None
     ∧ Parser fs (SetFileName path m0)
       = set_error kFailedToOpen (SetFileName path m0))
  ∨ (spec_valid_path path
     ∧ ∃ content,
         fs !! path = Some content
         ∧ ((Forall (λ line, ¬ bad_vertex_line line) (getlines "010" content)
             ∧ Parser fs (SetFileName path m0)
               = set_index (flat_map line_edges (getlines "010" content))
                   (set_coord
                      (normalize_coords
                         (flat_map line_coords (getlines "010" content)))
                      (SetFileName path m0)))
            ∨ (∃ pre bad post,
                 getlines "010" content = pre ++ bad :: post
                 ∧ Forall (λ line, ¬ bad_vertex_line line) pre
                 ∧ bad_vertex_line bad
                 ∧ Parser fs (SetFileName path m0)
                   = set_error kIncorrectData
                       (set_index (flat_map line_edges pre)
                          (set_coord (flat_map line_coords pre)
                             (SetFileName path m0)))))).
Proof.
  destruct (SetFileName_fields path m0) as (Hc & Hi & Hok & Hbad).
  destruct (IsValidObjExtension_ path) eqn:Hb.
  - apply IsValidObjExtension_spec in Hb. destruct (Hok Hb) as [He Hn].
    right. unfold Parser. rewrite He, Hn.
    destruct (decide (kNoError = kNoError)); [|done].
    destruct (fs !! path) as [content|] eqn:Hfs; [right | by left].
    split; [done|]. exists content. split; [done|].
    set (m1 := SetFileName path m0) in *.
    destruct (decide (error_code_ (parse_lines m1 (getlines "010" content)).1
                      = kNoError)) as [Hs|Hf].
    + left. split; [exact (parse_lines_success_lines _ m1 He Hs)|].
      rewrite parse_lines_success by done. rewrite Normalize_coords.
      unfold set_index, set_coord. simpl. by rewrite Hc, Hi.
    + right.
      destruct (parse_lines_failure _ m1 He Hf)
        as (pre & bad & post & Hl & Hpre & Hbd & Hres).
      exists pre, bad, post. split_and!; [done..|].
      rewrite Hres. simpl. by rewrite Hc, Hi.
  - assert (¬ spec_valid_path path) as Hnv
      by (rewrite <- IsValidObjExtension_spec; congruence).
    destruct (Hbad Hnv) as [He Hn]. left. split_and!; [done| |done].
    unfold Parser. destruct (decide _); [congruence | done].
Qed.
Lemma length_normalize_coords (v : vec) :
  length (normalize_coords v) = length v.
Proof.
  unfold normalize_coords. destruct v; [done|].
  destruct (_ <? _)%float; [by rewrite length_map | done].
Qed.

(** Without a bad vertex line every vertex line gives three coordinates. *)
Lemma length_line_coords (file : list string) :
  Forall (λ line, ¬ bad_vertex_line line) file →
  length (flat_map line_coords file)
  = (3 * length (filter (λ line, is_vertex_line line = true) file))%nat.
Proof.
  induction 1 as [|line file Hline _ IH]; [done|].
  simpl. rewrite length_app, IH. clear IH.
  destruct line as [|c0 [|c1 rest]];
    [rewrite filter_cons_False by done; simpl; lia..|].
  unfold line_coords, is_vertex_line.
  destruct (decide (c0 = "v"%char ∧ c1 = " "%char)) as [[-> ->]|Hn].
  - rewrite filter_cons_True by (by apply bool_decide_eq_true).
    destruct (three_numbers (c_str rest)) as [[[x y] z]|] eqn:Ht;
      [simpl; lia|].
    exfalso. apply Hline. by exists rest.
  - rewrite filter_cons_False; [simpl; lia|].
    by rewrite bool_decide_eq_true.
Qed.
End ParserAppends.


(** X5: the error code after [SetFileName] and [Parser] is decided by
    the path, the file system and the lines of the file, in this order:
    [kFileWrongExtension] exactly for a path that fails the validation,
    [kFailedToOpen] exactly for a valid path that cannot be opened,
    [kIncorrectData] exactly when the file has a vertex line on which
    three numbers cannot be read, and [kNoError] exactly when it has
    none. *)
Theorem X5_load_error_code `{libc : LibC} (fs : gmap string string)
    (path : string) (m0 : Model) :
  (error_code_ (Parser fs (SetFileName path m0)) = kFileWrongExtension
   ↔ ¬ spec_valid_path path)
  ∧ (error_code_ (Parser fs (SetFileName path m0)) = kFailedToOpen
     ↔ spec_valid_path path ∧ fs !! path = None)
  ∧ (error_code_ (Parser fs (SetFileName path m0)) = kIncorrectData
     ↔ spec_valid_path path
       ∧ ∃ content, fs !! path = Some content
                    ∧ Exists bad_vertex_line (getlines "010" content))
  ∧ (error_code_ (Parser fs (SetFileName path m0)) = kNoError
     ↔ spec_valid_path path
       ∧ ∃ content, fs !! path = Some content
                    ∧ Forall (λ line, ¬ bad_vertex_line line)
                             (getlines "010" content)).
Proof.
  destruct (SetFileName_fields path m0) as (_ & _ & Hok & _).
  destruct (Parser_cases fs path m0)
    as [(Hnv & -> & He)
       |[(Hv & Hfs & ->)
        |(Hv & content & Hfs & [(Hall & ->)|(pre & bad & post & Hl & Hpre & Hb & ->)])]].
  - rewrite He. split_and!; split; try done; try tauto; intros [? _]; tauto.
  - simpl. split_and!; split; try done; try tauto.
    + intros (_ & content & Hc & _). congruence.
    + intros (_ & content & Hc & _). congruence.
  - simpl. destruct (Hok Hv) as [-> _].
    split_and!; split; try done; try tauto.
    + intros [_ Hn]. congruence.
    + intros (_ & content' & Hc & Hex). assert (content' = content) as -> by congruence.
      exfalso. apply Exists_exists in Hex as (line & Hin & Hbad).
      rewrite Forall_forall in Hall. by apply (Hall line).
    + intros _. split; [done|]. by exists content.
  - simpl. split_and!; split; try done; try tauto.
    + intros [_ Hn]. congruence.
    + intros _. split; [done|]. exists content. split; [done|].
      rewrite Hl. apply Exists_app. right. by constructor.
    + intros (_ & content' & Hc & Hall). assert (content' = content) as -> by congruence.
      exfalso. rewrite Hl in Hall. apply Forall_app in Hall as [_ Hall].
      by inversion Hall.
Qed.

(** X6: a load that ends without an error leaves in the buffers the
    contributions of the lines of the file, in their order: the
    coordinates are the normalized numbers of its vertex lines, one
    vertex per vertex line, and the edge sequence is the cyclic edges
    of its face lines. *)
Theorem X6_load_success `{libc : LibC} (fs : gmap string string)
    (path : string) (m0 : Model) :
  error_code_ (Parser fs (SetFileName path m0)) = kNoError →
  ∃ content,
    fs !! path = Some content
    ∧ vertex_coord_ (Parser fs (SetFileName path m0))
      = normalize_coords (flat_map line_coords (getlines "010" content))
    ∧ vertex_index_ (Parser fs (SetFileName path m0))
      = flat_map line_edges (getlines "010" content)
    ∧ GetVertexCount (Parser fs (SetFileName path m0))
      = length (filter (λ line, is_vertex_line line = true)
                       (getlines "010" content)).
Proof.
  destruct (Parser_cases fs path m0)
    as [(Hnv & -> & He)
       |[(Hv & Hfs & ->)
        |(Hv & content & Hfs & [(Hall & ->)|(pre & bad & post & Hl & Hpre & Hb & ->)])]];
    [congruence | done | | done].
  intros _. exists content. split_and!; [done..|].
  unfold GetVertexCount, set_index, set_coord. cbn [vertex_coord_].
  rewrite length_normalize_coords, length_line_coords by done.
  generalize (length (filter (λ line, is_vertex_line line = true)
                             (getlines "010" content))).
  intros n. zify; Z.div_mod_to_equations; lia.
Qed.

(** The quad: four vertex lines, nothing to normalize. *)
Lemma X6_load_success_witness :
  error_code_ (load quad_source) = kNoError
  ∧ ∃ content,
      ({[ "m.obj"%string := quad_source ]} : gmap string string)
        !! "m.obj"%string = Some content
      ∧ vertex_coord_ (load quad_source)
        = normalize_coords (flat_map line_coords (getlines "010" content))
      ∧ vertex_index_ (load quad_source)
        = flat_map line_edges (getlines "010" content)
      ∧ GetVertexCount (load quad_source)
        = length (filter (λ line, is_vertex_line line = true)
                         (getlines "010" content)).
Proof.
  assert (error_code_ (load quad_source) = kNoError) as He
    by (vm_compute; reflexivity).
  split; [exact He|].
  exact (X6_load_success (libc := decimal_libc)
           {[ "m.obj"%string := quad_source ]} "m.obj" initial_model He).
Defined.

(** X7: a load that ends with [kIncorrectData] does not clear the
    buffers: they hold what the lines before the first unreadable
    vertex line contribute, not normalized; the lines after it
    contribute nothing. *)
Theorem X7_load_failure_keeps_partial_data `{libc : LibC}
    (fs : gmap string string) (path : string) (m0 : Model) :
  error_code_ (Parser fs (SetFileName path m0)) = kIncorrectData →
  ∃ content pre bad post,
    fs !! path = Some content
    ∧ getlines "010" content = pre ++ bad :: post
    ∧ Forall (λ line, ¬ bad_vertex_line line) pre
    ∧ bad_vertex_line bad
    ∧ vertex_coord_ (Parser fs (SetFileName path m0))
      = flat_map line_coords pre
    ∧ vertex_index_ (Parser fs (SetFileName path m0))
      = flat_map line_edges pre.
Proof.
  destruct (SetFileName_fields path m0) as (_ & _ & Hok & _).
  destruct (Parser_cases fs path m0)
    as [(Hnv & -> & He)
       |[(Hv & Hfs & ->)
        |(Hv & content & Hfs & [(Hall & ->)|(pre & bad & post & Hl & Hpre & Hb & ->)])]];
    [congruence | done | | ].
  - simpl. destruct (Hok Hv) as [-> _]. done.
  - intros _. by exists content, pre, bad, post.
Qed.

(** A vertex far from the origin and a face, then a line that cannot be
    parsed: the vertex stays, as it was read. *)
Lemma X7_load_failure_witness :
  error_code_ (load partial_source) = kIncorrectData
  ∧ vertex_coord_ (load partial_source) = [100%float; 0%float; 0%float]
  ∧ vertex_index_ (load partial_source) = [0; 0; 0; 0]
  ∧ ∃ content pre bad post,
      ({[ "m.obj"%string := partial_source ]} : gmap string string)
        !! "m.obj"%string = Some content
      ∧ getlines "010" content = pre ++ bad :: post
      ∧ Forall (λ line, ¬ bad_vertex_line line) pre
      ∧ bad_vertex_line bad
      ∧ vertex_coord_ (load partial_source) = flat_map line_coords pre
      ∧ vertex_index_ (load partial_source) = flat_map line_edges pre.
Proof.
  assert (error_code_ (load partial_source) = kIncorrectData) as He
    by (vm_compute; reflexivity).
  split_and!; [exact He | vm_compute; reflexivity | vm_compute; reflexivity |].
  exact (X7_load_failure_keeps_partial_data (libc := decimal_libc)
           {[ "m.obj"%string := partial_source ]} "m.obj" initial_model He).
Defined.


(** ** Loading into buffers that are not empty *)

Section ParserKeeps.
Context `{libc : LibC}.

Lemma parse_lines_ok (file : list string) (m : Model) :
  error_code_ m = kNoError →
  Forall (λ line, ¬ bad_vertex_line line) file →
  error_code_ (parse_lines m file).1 = kNoError.
Proof.
  intros Hm Hall. revert m Hm.
  induction Hall as [|line file Hline _ IH]; intros m Hm; simpl; [done|].
  destruct (decide _); [|done]. apply IH.
  by rewrite not_bad_vertex_line.
Qed.

Lemma parse_lines_rest_nil (file : list string) (m : Model) :
  error_code_ (parse_lines m file).1 = kNoError → (parse_lines m file).2 = [].
Proof.
  revert m. induction file as [|line file IH]; intros m; simpl; [done|].
  destruct (decide _); [apply IH | done].
Qed.

Lemma parse_lines_at_bad (pre post : list string) (bad : string) (m : Model) :
  error_code_ m = kNoError →
  Forall (λ line, ¬ bad_vertex_line line) pre →
  bad_vertex_line bad →
  parse_lines m (pre ++ bad :: post)
  = (set_error kIncorrectData
       (set_index (vertex_index_ m ++ flat_map line_edges pre)
          (set_coord (vertex_coord_ m ++ flat_map line_coords pre) m)),
     post).
Proof.
  intros Hm Hpre (rest & -> & Hnone).
  pose proof (parse_lines_ok pre m Hm Hpre) as Hok.
  rewrite parse_lines_app. destruct (decide _); [|done].
  rewrite parse_lines_success by done.
  rewrite parse_lines_cons by done.
  rewrite parse_line_vertex, VertexParser_spec, Hnone.
  by rewrite parse_lines_error.
Qed.

(** The loop appends to the buffers it finds, and what it appends does
    not depend on them. *)
Lemma parse_lines_append (file : list string) (m : Model) :
  error_code_ m = kNoError →
  parse_lines m file
  = (append_model m (parse_lines (ClearData_ m) file).1,
     (parse_lines (ClearData_ m) file).2).
Proof.
  intros Hm.
  assert (error_code_ (ClearData_ m) = kNoError) as Hc by done.
  destruct (decide (error_code_ (parse_lines (ClearData_ m) file).1 = kNoError))
    as [Hs|Hf].
  - pose proof (parse_lines_success_lines _ _ Hc Hs) as Hall.
    pose proof (parse_lines_ok file m Hm Hall) as Hok.
    rewrite (surjective_pairing (parse_lines m file)).
    rewrite !parse_lines_rest_nil by done.
    rewrite !parse_lines_success by done.
    unfold append_model, set_index, set_coord. simpl. by rewrite Hm.
  - destruct (parse_lines_failure _ _ Hc Hf)
      as (pre & bad & post & -> & Hpre & Hb & Hres).
    rewrite Hres. rewrite parse_lines_at_bad by done.
    by unfold append_model, set_error, set_index, set_coord.
Qed.

Lemma Parser_append (fs : gmap string string) (m : Model) :
  error_code_ m = kNoError →
  vertex_index_ (Parser fs m)
  = vertex_index_ m ++ vertex_index_ (Parser fs (ClearData_ m))
  ∧ length (vertex_coord_ (Parser fs m))
    = (length (vertex_coord_ m)
       + length (vertex_coord_ (Parser fs (ClearData_ m))))%nat
  ∧ error_code_ (Parser fs m) = error_code_ (Parser fs (ClearData_ m)).
Proof.
  intros Hm. unfold Parser. rewrite Hm. simpl.
  destruct (decide (kNoError = kNoError)); [|done].
  destruct (fs !! filename_ m) as [content|]; simpl;
    [|by rewrite !app_nil_r, Nat.add_0_r].
  rewrite (parse_lines_append _ m Hm). simpl.
  set (d := (parse_lines (ClearData_ m) (getlines "010" content)).1).
  destruct (decide (error_code_ d = kNoError)).
  - rewrite !Normalize_coords. simpl.
    by rewrite !length_normalize_coords, length_app.
  - simpl. by rewrite length_app.
Qed.

(** Clearing a model that was loaded gives back the model that was
    given to the parser. *)
Lemma ClearData_Parser (fs : gmap string string) (path : string) (m0 : Model) :
  spec_valid_path path →
  ClearData_ (Parser fs (SetFileName path m0)) = SetFileName path m0.
Proof.
  intros Hv. destruct (SetFileName_fields path m0) as (Hc & Hi & Hok & _).
  destruct (Hok Hv) as [He Hn].
  assert (ClearData_ (SetFileName path m0) = SetFileName path m0) as Hid.
  { unfold ClearData_. rewrite <- Hc, <- Hi, <- He at 1.
    by destruct (SetFileName path m0). }
  destruct (Parser_cases fs path m0)
    as [(Hnv & -> & _)
       |[(_ & Hfs & ->)
        |(_ & content & Hfs & [(Hall & ->)|(pre & bad & post & Hl & Hpre & Hb & ->)])]];
    done.
Qed.

Lemma length_line_coords_whole (file : list string) :
  (length (flat_map line_coords file) mod 3 = 0)%nat.
Proof.
  induction file as [|line file IH]; [done|].
  simpl flat_map. rewrite length_app.
  assert (length (line_coords line) = 0 ∨ length (line_coords line) = 3)%nat
    as Hl.
  { unfold line_coords. destruct line as [|c0 [|c1 rest]]; [by left..|].
    destruct (decide _); [|by left].
    destruct (three_numbers (c_str rest)) as [[[x y] z]|]; [by right | by left]. }
  zify; Z.div_mod_to_equations; lia.
Qed.

Lemma length_line_edges_even (file : list string) :
  (length (flat_map line_edges file) mod 2 = 0)%nat.
Proof.
  induction file as [|line file IH]; [done|].
  simpl flat_map. rewrite length_app.
  assert (∃ n, length (line_edges line) = 2 * n)%nat as [n Hn].
  { unfold line_edges. destruct line as [|c0 [|c1 rest]]; [by exists 0%nat..|].
    destruct (decide _); [|by exists 0%nat].
    destruct (decide _); [|by exists 0%nat].
    eexists. apply length_cyclic_edges. }
  zify; Z.div_mod_to_equations; lia.
Qed.

Lemma Parser_lengths (fs : gmap string string) (path : string) (m0 : Model) :
  (length (vertex_coord_ (Parser fs (SetFileName path m0))) mod 3 = 0)%nat
  ∧ (length (vertex_index_ (Parser fs (SetFileName path m0))) mod 2 = 0)%nat.
Proof.
  destruct (SetFileName_fields path m0) as (Hc & Hi & _).
  destruct (Parser_cases fs path m0)
    as [(Hnv & -> & _)
       |[(_ & Hfs & ->)
        |(_ & content & Hfs & [(Hall & ->)|(pre & bad & post & Hl & Hpre & Hb & ->)])]];
    unfold set_error, set_index, set_coord;
    cbn [vertex_coord_ vertex_index_];
    rewrite ?Hc, ?Hi, ?length_normalize_coords;
    (split; [try done; apply length_line_coords_whole
            |try done; apply length_line_edges_even]).
Qed.
End ParserKeeps.


(** X8: [Parser] does not clear the buffers: called on a model that
    has no error it appends to the edge sequence the edges that the
    same call gives on cleared buffers, adds as many coordinates as
    that call gives, and ends with the same error code. *)
Theorem X8_parser_appends `{libc : LibC} (fs : gmap string string) (m : Model) :
  error_code_ m = kNoError →
  vertex_index_ (Parser fs m)
  = vertex_index_ m ++ vertex_index_ (Parser fs (ClearData_ m))
  ∧ length (vertex_coord_ (Parser fs m))
    = (length (vertex_coord_ m)
       + length (vertex_coord_ (Parser fs (ClearData_ m))))%nat
  ∧ error_code_ (Parser fs m) = error_code_ (Parser fs (ClearData_ m)).
Proof. apply Parser_append. Qed.

(** The quad parsed into the buffers of the loaded quad. *)
Lemma X8_parser_appends_witness :
  error_code_ (load quad_source) = kNoError
  ∧ vertex_index_ (Parser (libc := decimal_libc)
                     {[ "m.obj"%string := quad_source ]} (load quad_source))
    = vertex_index_ (load quad_source)
      ++ vertex_index_ (Parser (libc := decimal_libc)
                          {[ "m.obj"%string := quad_source ]}
                          (ClearData_ (load quad_source))).
Proof.
  assert (error_code_ (load quad_source) = kNoError) as He
    by (vm_compute; reflexivity).
  split; [exact He|].
  exact (proj1 (X8_parser_appends (libc := decimal_libc)
                  {[ "m.obj"%string := quad_source ]} (load quad_source) He)).
Defined.

(** X9: a second [Parser] call after a load without error, with no
    [SetFileName] in between, reads the file again and duplicates the
    mesh: the edge sequence is the loaded one twice, the number of
    coordinates doubles, and no error is set. *)
Theorem X9_second_load_duplicates `{libc : LibC} (fs : gmap string string)
    (path : string) (m0 : Model) :
  error_code_ (Parser fs (SetFileName path m0)) = kNoError →
  vertex_index_ (Parser fs (Parser fs (SetFileName path m0)))
  = vertex_index_ (Parser fs (SetFileName path m0))
    ++ vertex_index_ (Parser fs (SetFileName path m0))
  ∧ length (vertex_coord_ (Parser fs (Parser fs (SetFileName path m0))))
    = (2 * length (vertex_coord_ (Parser fs (SetFileName path m0))))%nat
  ∧ error_code_ (Parser fs (Parser fs (SetFileName path m0))) = kNoError.
Proof.
  intros He.
  assert (spec_valid_path path) as Hv.
  { destruct (Parser_cases fs path m0) as [(Hnv & Hp & Hw)|[(Hv & _)|(Hv & _)]];
      [|done..].
    rewrite Hp in He. congruence. }
  destruct (Parser_append fs _ He) as (Hi & Hc & Hr).
  rewrite ClearData_Parser in Hi, Hc, Hr by done.
  split_and!; [done | lia | congruence].
Qed.

Lemma X9_second_load_witness :
  error_code_ (load quad_source) = kNoError
  ∧ vertex_index_ (Parser (libc := decimal_libc)
                     {[ "m.obj"%string := quad_source ]} (load quad_source))
    = [0; 1; 1; 2; 2; 3; 3; 0; 0; 1; 1; 2; 2; 3; 3; 0]
  ∧ length (vertex_coord_ (Parser (libc := decimal_libc)
                             {[ "m.obj"%string := quad_source ]}
                             (load quad_source)))
    = (2 * length (vertex_coord_ (load quad_source)))%nat.
Proof.
  assert (error_code_ (load quad_source) = kNoError) as He
    by (vm_compute; reflexivity).
  destruct (X9_second_load_duplicates (libc := decimal_libc)
              {[ "m.obj"%string := quad_source ]} "m.obj" initial_model He)
    as (Hi & Hc & _).
  split_and!; [exact He | | exact Hc].
  etransitivity; [exact Hi|]. vm_compute. reflexivity.
Defined.

(** X10: after any [SetFileName] and [Parser], whatever the outcome,
    the accessors count exactly: the number of coordinates is three
    times [GetVertexCount] and the number of entries of the edge
    sequence is twice [GetEdgeCount]. *)
Theorem X10_counts_exact `{libc : LibC} (fs : gmap string string)
    (path : string) (m0 : Model) :
  length (vertex_coord_ (Parser fs (SetFileName path m0)))
  = (3 * GetVertexCount (Parser fs (SetFileName path m0)))%nat
  ∧ length (vertex_index_ (Parser fs (SetFileName path m0)))
    = (2 * GetEdgeCount (Parser fs (SetFileName path m0)))%nat.
Proof.
  destruct (Parser_lengths fs path m0) as [Hc Hi].
  unfold GetVertexCount, GetEdgeCount.
  split; zify; Z.div_mod_to_equations; lia.
Qed.

(** ** Lines that the parser skips *)

Section IgnoredLines.
Context `{libc : LibC}.

Lemma parse_line_ignored (line : string) (m : Model) :
  ignored_line line → parse_line line m = m.
Proof.
  intros Hig. unfold parse_line.
  destruct line as [|c0 [|c1 rest]]; [done..|].
  destruct (decide _); [done|].
  destruct (decide _) as [[-> ->]|]; [by destruct (Hig rest) as [? _]|].
  destruct (decide _) as [[-> ->]|]; [by destruct (Hig rest) as [_ ?]|].
  done.
Qed.

Lemma parse_lines_ignored (m : Model) (l1 l2 : list string) (line : string) :
  ignored_line line →
  (parse_lines m (l1 ++ line :: l2)).1 = (parse_lines m (l1 ++ l2)).1.
Proof.
  intros Hig. rewrite !parse_lines_app.
  destruct (decide _) as [He|]; [|done].
  by rewrite parse_lines_cons, parse_line_ignored.
Qed.

Lemma append_assoc_s (a b c : string) : (a +:+ b) +:+ c = a +:+ (b +:+ c).
Proof.
  induction a as [|x a IH]; [done|].
  change (String x ((a +:+ b) +:+ c) = String x (a +:+ (b +:+ c))).
  by rewrite IH.
Qed.

Lemma getlines_terminated_nonempty (delim : ascii) (s : string) :
  getlines delim (s +:+ String delim EmptyString) ≠ [].
Proof.
  induction s as [|c s IH]; simpl.
  - by destruct (decide _).
  - destruct (decide _); [done|]. by destruct (getlines _ _).
Qed.

(** The lines of a text that ends with a newline, followed by more text. *)
Lemma getlines_app_terminated (delim : ascii) (s x : string) :
  getlines delim ((s +:+ String delim EmptyString) +:+ x)
  = getlines delim (s +:+ String delim EmptyString) ++ getlines delim x.
Proof.
  induction s as [|c s IH]; simpl.
  - by destruct (decide _).
  - destruct (decide _); [by rewrite IH|].
    rewrite IH. pose proof (getlines_terminated_nonempty delim s) as Hne.
    by destruct (getlines delim (s +:+ String delim EmptyString)).
Qed.

Lemma getlines_one_line (delim : ascii) (line : string) :
  free_of delim line →
  getlines delim (line +:+ String delim EmptyString) = [line].
Proof.
  induction line as [|c line IH]; simpl.
  - intros _. by destruct (decide _).
  - intros [Hc Hfree]. destruct (decide _); [done|]. by rewrite IH.
Qed.

(** The lines of a text with a whole line inserted at a line start. *)
Lemma getlines_insert_line (c1 line c2 : string) :
  at_line_start c1 → free_of "010" line →
  getlines "010" (c1 +:+ line +:+ nl +:+ c2)
  = getlines "010" c1 ++ line :: getlines "010" c2
  ∧ getlines "010" (c1 +:+ c2) = getlines "010" c1 ++ getlines "010" c2.
Proof.
  intros Hstart Hfree.
  assert (getlines "010" (line +:+ nl +:+ c2) = line :: getlines "010" c2)
    as Hline.
  { rewrite <- append_assoc_s. unfold nl.
    by rewrite getlines_app_terminated, getlines_one_line. }
  destruct Hstart as [->|[s' ->]]; [done|].
  unfold nl in *. by rewrite !getlines_app_terminated, Hline.
Qed.
End IgnoredLines.

(** X11: an empty line, a comment, or a line that starts neither with
    [v] and a space nor with [f] and a space (such as [vn], [vt], [g])
    changes nothing: inserted as a whole line at any line start of the
    file, it leaves the result of [Parser] as it is. *)
Theorem X11_ignored_lines `{libc : LibC} (fs : gmap string string)
    (path c1 line c2 : string) (m : Model) :
  ignored_line line → free_of "010" line → at_line_start c1 →
  Parser (<[path := c1 +:+ line +:+ nl +:+ c2]> fs) m
  = Parser (<[path := c1 +:+ c2]> fs) m.
Proof.
  intros Hig Hfree Hstart. unfold Parser.
  destruct (decide _); [|done].
  destruct (decide (filename_ m = path)) as [->|Hne].
  - rewrite !lookup_insert_eq.
    destruct (getlines_insert_line c1 line c2 Hstart Hfree) as [-> ->].
    by rewrite parse_lines_ignored.
  - by rewrite !lookup_insert_ne.
Qed.

Lemma X11_ignored_lines_witness :
  load ("v 0 0 0" +:+ nl +:+ "vn 0 0 1" +:+ nl +:+ "f 1 1" +:+ nl)
  = load ("v 0 0 0" +:+ nl +:+ "f 1 1" +:+ nl).
Proof.
  unfold load.
  change ({[ "m.obj"%string := "v 0 0 0" +:+ nl +:+ "vn 0 0 1" +:+ nl +:+ "f 1 1" +:+ nl ]}
          : gmap string string)
    with (<["m.obj"%string :=
             ("v 0 0 0" +:+ nl) +:+ "vn 0 0 1" +:+ nl +:+ ("f 1 1" +:+ nl)]>
            (∅ : gmap string string)).
  change ({[ "m.obj"%string := "v 0 0 0" +:+ nl +:+ "f 1 1" +:+ nl ]}
          : gmap string string)
    with (<["m.obj"%string := ("v 0 0 0" +:+ nl) +:+ ("f 1 1" +:+ nl)]>
            (∅ : gmap string string)).
  apply (X11_ignored_lines (libc := decimal_libc)).
  - intros rest. split; discriminate.
  - simpl. repeat split; discriminate.
  - right. by exists "v 0 0 0"%string.
Defined.


(** ** An infinite coordinate *)

Section Infinity.
Local Open Scope float_scope.

Lemma Normalize_infinity (m : Model) (c : float) :
  c ∈ vertex_coord_ m → is_infinity c = true →
  vertex_coord_ (Normalize_ m) = map (λ coord, coord * 0) (vertex_coord_ m).
Proof.
  intros Hin Hinf. rewrite Normalize_coords. simpl.
  unfold normalize_coords. rewrite (max_abs_infinity _ c Hin Hinf).
  by destruct (vertex_coord_ m).
Qed.
End Infinity.

(** X12: one infinite coordinate (the conversion of [inf], or of a
    numeral too large for a [double]) makes [Normalize_] multiply every
    coordinate by [1 / infinity = 0]: the infinite coordinates become
    NaN, and every coordinate of the result is a NaN or a zero. *)
Theorem X12_normalize_infinity (m : Model) (c : float) :
  c ∈ vertex_coord_ m → is_infinity c = true →
  vertex_coord_ (Normalize_ m)
  = map (λ coord, (coord * 0)%float) (vertex_coord_ m)
  ∧ is_nan (c * 0)%float = true
  ∧ ∀ c', c' ∈ vertex_coord_ (Normalize_ m) →
          is_nan c' = true ∨ is_zero c' = true.
Proof.
  intros Hin Hinf. split_and!.
  - by eapply Normalize_infinity.
  - by apply is_nan_spec, mul_zero_infinite.
  - rewrite (Normalize_infinity m c Hin Hinf).
    intros c' (c0 & -> & _)%list_elem_of_fmap.
    destruct (mul_zero_cases c0) as [Hn|[s Hz]].
    + left. by apply is_nan_spec.
    + right. by eapply is_zero_spec.
Qed.

(** The vertex (1e999, 1, 2): the first number is read as infinity. *)
Lemma X12_normalize_infinity_witness :
  vertex_coord_ (load overflow_source) = [nan; 0%float; 0%float]
  ∧ vertex_coord_
      (Normalize_ (set_coord [infinity; 1%float; 2%float] initial_model))
    = map (λ coord, (coord * 0)%float) [infinity; 1%float; 2%float].
Proof.
  split; [vm_compute; reflexivity|].
  apply (X12_normalize_infinity
           (set_coord [infinity; 1%float; 2%float] initial_model) infinity).
  - apply list_elem_of_here.
  - reflexivity.
Defined.

(** ** The controller *)

Lemma to_int_small (n : Z) : 0 ≤ n < 2 ^ 31 → to_int n = n.
Proof.
  intros Hn. unfold to_int. rewrite Z.mod_small; lia.
Qed.

(** X13: [Controller::LoadModel] leaves the model that [SetFileName]
    and [Parser] give and emits one signal: [ModelLoadError] exactly
    when the error code is not [kNoError], with the message of that
    code and never the message of the default branch; otherwise
    [ModelLoaded] with the two buffers, the file name, and counts that
    are exactly a third of the number of coordinates and a half of the
    number of edge entries, as long as they fit an [int]. *)
Theorem X13_load_model_signal `{libc : LibC} (fileName : string → string)
    (fs : gmap string string) (file_path : string) (m : Model) :
  (LoadModel fileName fs file_path m).1 = Parser fs (SetFileName file_path m)
  ∧ match (LoadModel fileName fs file_path m).2 with
    | ModelLoadError message =>
        error_code_ (Parser fs (SetFileName file_path m)) ≠ kNoError
        ∧ message
          = GetErrorMessage_ (GetError (Parser fs (SetFileName file_path m)))
        ∧ message ≠ GetErrorMessage_ 0
        ∧ (message = GetErrorMessage_ 1
           ↔ error_code_ (Parser fs (SetFileName file_path m))
             = kFileWrongExtension)
        ∧ (message = GetErrorMessage_ 2
           ↔ error_code_ (Parser fs (SetFileName file_path m)) = kFailedToOpen)
        ∧ (message = GetErrorMessage_ 3
           ↔ error_code_ (Parser fs (SetFileName file_path m)) = kIncorrectData)
    | ModelLoaded vertex_index vertex_coord filename vertex_count edge_count =>
        error_code_ (Parser fs (SetFileName file_path m)) = kNoError
        ∧ vertex_index = vertex_index_ (Parser fs (SetFileName file_path m))
        ∧ vertex_coord = vertex_coord_ (Parser fs (SetFileName file_path m))
        ∧ filename = fileName file_path
        ∧ (Z.of_nat (length vertex_coord) < 3 * 2 ^ 31 →
           3 * vertex_count = Z.of_nat (length vertex_coord))
        ∧ (Z.of_nat (length vertex_index) < 2 * 2 ^ 31 →
           2 * edge_count = Z.of_nat (length vertex_index))
    | ModelTransformed _ _ => False
    end.
Proof.
  unfold LoadModel, GetError.
  destruct (Parser_lengths fs file_path m) as [Hc Hi].
  set (m' := Parser fs (SetFileName file_path m)) in *.
  destruct (error_code_ m') eqn:He;
    cbn -[Nat.div Nat.modulo Z.pow Z.mul to_int].
  - split; [done|]. split_and!; [done..| |].
    + intros Hlt. rewrite to_int_small; zify; Z.div_mod_to_equations; lia.
    + intros Hlt. rewrite to_int_small; zify; Z.div_mod_to_equations; lia.
  - split; [done|]. by split_and!.
  - split; [done|]. by split_and!.
  - split; [done|]. by split_and!.
Qed.


(** ** How moves compose *)

Section MoveCompose.
Local Open Scope nat_scope.

Local Ltac mod_lia := zify; Z.div_mod_to_equations; lia.

Lemma move_coords_comm (s1 s2 : float) (a1 a2 : nat) (v : vec) :
  a1 ≠ a2 →
  move_coords s1 a1 (move_coords s2 a2 v)
  = move_coords s2 a2 (move_coords s1 a1 v).
Proof.
  intros Hne. unfold move_coords. apply list_eq. intros j.
  rewrite !list_lookup_imap. destruct (v !! j) as [c|]; [|done].
  cbn -[Nat.modulo].
  destruct (decide (j mod 3 = a1)), (decide (j mod 3 = a2)); try done.
  congruence.
Qed.

Lemma imap_coords_of (g : nat → float → float) (vs : list vertex) (n : nat) :
  imap (λ j coord, g ((3 * n + j) mod 3) coord) (coords_of vs)
  = coords_of (map (λ v : vertex, (g 0 v.1.1, g 1 v.1.2, g 2 v.2)) vs).
Proof.
  revert n. induction vs as [|[[x y] z] vs IH]; intros n; [done|].
  change (coords_of ((x, y, z) :: vs)) with (x :: y :: z :: coords_of vs).
  change (coords_of (map (λ v : vertex, (g 0 v.1.1, g 1 v.1.2, g 2 v.2))
                         ((x, y, z) :: vs)))
    with (g 0 x :: g 1 y :: g 2 z
          :: coords_of (map (λ v : vertex, (g 0 v.1.1, g 1 v.1.2, g 2 v.2)) vs)).
  rewrite !imap_cons. cbv beta.
  f_equal; [f_equal; clear; mod_lia|].
  f_equal; [unfold compose; f_equal; clear; mod_lia|].
  f_equal; [unfold compose; f_equal; clear; mod_lia|].
  rewrite <- (IH (S n)). apply imap_ext. intros j c _.
  unfold compose. f_equal. clear. mod_lia.
Qed.

Lemma move_coords_vertices (step : float) (axis : nat) (vs : list vertex) :
  move_coords step axis (coords_of vs)
  = coords_of (map (move_vertex step axis) vs).
Proof.
  set (G := λ (r : nat) (coord : float),
              if decide (r = axis) then (coord + step)%float else coord).
  transitivity
    (coords_of (map (λ v : vertex, (G 0 v.1.1, G 1 v.1.2, G 2 v.2)) vs)).
  - etransitivity; [|exact (imap_coords_of G vs 0)].
    unfold move_coords. apply imap_ext. intros j c _.
    by rewrite Nat.mul_0_r, Nat.add_0_l.
  - f_equal. apply map_ext. intros [[x y] z].
    unfold move_vertex, G. cbn [fst snd].
    by destruct (decide (0 = axis)), (decide (axis = 0)),
         (decide (1 = axis)), (decide (axis = 1)),
         (decide (2 = axis)), (decide (axis = 2)).
Qed.

Lemma rot_move_comm (axis : transformation_t) (c s step : float) (v : vertex) :
  rot_axis axis c s (move_vertex step (axis_value axis) v)
  = move_vertex step (axis_value axis) (rot_axis axis c s v).
Proof. destruct v as [[x y] z]. by destruct axis. Qed.
End MoveCompose.

(** X14: moves along two different axes commute exactly: in either
    order they complete and leave the same coordinates. *)
Theorem X14_moves_commute `{libm : LibM} (m : Model) (s1 s2 : float)
    (a1 a2 : transformation_t) :
  a1 ≠ a2 →
  ∃ m1 m2 m12 m21,
    Transform kMove s1 a1 m = Done m1
    ∧ Transform kMove s2 a2 m1 = Done m12
    ∧ Transform kMove s2 a2 m = Done m2
    ∧ Transform kMove s1 a1 m2 = Done m21
    ∧ vertex_coord_ m12 = vertex_coord_ m21
    ∧ vertex_index_ m12 = vertex_index_ m21
    ∧ error_code_ m12 = error_code_ m21.
Proof.
  intros Hne.
  destruct (Transform_move_coords m s1 a1) as (m1 & H1 & Hc1 & Hi1 & He1).
  destruct (Transform_move_coords m1 s2 a2) as (m12 & H12 & Hc12 & Hi12 & He12).
  destruct (Transform_move_coords m s2 a2) as (m2 & H2 & Hc2 & Hi2 & He2).
  destruct (Transform_move_coords m2 s1 a1) as (m21 & H21 & Hc21 & Hi21 & He21).
  exists m1, m2, m12, m21. split_and!; [done..| |congruence|congruence].
  rewrite Hc12, Hc1, Hc21, Hc2. symmetry. apply move_coords_comm.
  by destruct a1, a2.
Qed.

(** One step along X and two along Y, on the loaded quad. *)
Lemma X14_moves_commute_witness :
  kX ≠ kY
  ∧ ∃ m1 m2 m12 m21,
      Transform (libm := table_libm) kMove 1%float kX (load quad_source) = Done m1
      ∧ Transform (libm := table_libm) kMove 2%float kY m1 = Done m12
      ∧ Transform (libm := table_libm) kMove 2%float kY (load quad_source) = Done m2
      ∧ Transform (libm := table_libm) kMove 1%float kX m2 = Done m21
      ∧ vertex_coord_ m12 = vertex_coord_ m21
      ∧ vertex_index_ m12 = vertex_index_ m21
      ∧ error_code_ m12 = error_code_ m21.
Proof.
  split; [discriminate|].
  apply (X14_moves_commute (libm := table_libm)). discriminate.
Defined.

(** X15: on a buffer of whole vertices a move along an axis and a
    rotation around the same axis commute exactly: in either order
    they complete and leave the same coordinates. *)
Theorem X15_move_commutes_with_rotation `{libm : LibM} (m : Model)
    (step angle : float) (axis : transformation_t) :
  whole (vertex_coord_ m) →
  ∃ m1 m2 m12 m21,
    Transform kMove step axis m = Done m1
    ∧ Transform kRotate angle axis m1 = Done m12
    ∧ Transform kRotate angle axis m = Done m2
    ∧ Transform kMove step axis m2 = Done m21
    ∧ vertex_coord_ m12 = vertex_coord_ m21.
Proof.
  intros [vs Hvs]%whole_coords_of.
  destruct (Transform_move_coords m step axis) as (m1 & H1 & Hc1 & _).
  rewrite Hvs, move_coords_vertices in Hc1.
  destruct (Transform_rotate_vertices m1 _ angle axis Hc1)
    as (m12 & H12 & Hc12 & _).
  destruct (Transform_rotate_vertices m vs angle axis Hvs)
    as (m2 & H2 & Hc2 & _).
  destruct (Transform_move_coords m2 step axis) as (m21 & H21 & Hc21 & _).
  rewrite Hc2, move_coords_vertices in Hc21.
  exists m1, m2, m12, m21. split_and!; [done..|].
  rewrite Hc12, Hc21. f_equal. rewrite !map_map. apply map_ext. intros v.
  exact (rot_move_comm axis _ _ step v).
Qed.

(** A step along Z and a quarter turn around Z, on the loaded quad. *)
Lemma X15_move_commutes_with_rotation_witness :
  whole (vertex_coord_ (load quad_source))
  ∧ ∃ m1 m2 m12 m21,
      Transform (libm := table_libm) kMove 1%float kZ (load quad_source) = Done m1
      ∧ Transform (libm := table_libm) kRotate 90%float kZ m1 = Done m12
      ∧ Transform (libm := table_libm) kRotate 90%float kZ (load quad_source)
        = Done m2
      ∧ Transform (libm := table_libm) kMove 1%float kZ m2 = Done m21
      ∧ vertex_coord_ m12 = vertex_coord_ m21.
Proof.
  assert (whole (vertex_coord_ (load quad_source))) as Hw
    by (vm_compute; reflexivity).
  split; [exact Hw|].
  exact (X15_move_commutes_with_rotation (libm := table_libm)
           (load quad_source) 1%float 90%float kZ Hw).
Defined.

(** ** The end of the file *)

Lemma getlines_final_newline (delim : ascii) (s : string) :
  ¬ (s = EmptyString ∨ ∃ s', s = s' +:+ String delim EmptyString) →
  getlines delim (s +:+ String delim EmptyString) = getlines delim s.
Proof.
  induction s as [|c s IH]; intros Hn.
  - exfalso. apply Hn. by left.
  - assert (s ≠ EmptyString →
            ¬ (s = EmptyString ∨ ∃ s', s = s' +:+ String delim EmptyString))
      as Hs.
    { intros Hne [?|[s'' Hs]]; [done|]. apply Hn. right.
      exists (String c s'').
      change (String c s = String c (s'' +:+ String delim EmptyString)).
      by rewrite Hs. }
    change (getlines delim (String c (s +:+ String delim EmptyString))
            = getlines delim (String c s)).
    destruct s as [|c' s'].
    + simpl. destruct (decide (c = delim)) as [->|Hc].
      * exfalso. apply Hn. right. by exists EmptyString.
      * by destruct (decide _).
    + cbn [getlines]. by rewrite (IH (Hs ltac:(done))).
Qed.

(** X16: the newline after the last line is optional: a file whose
    last line is not ended by a newline gives the same result as the
    file with that newline added. *)
Theorem X16_final_newline_optional `{libc : LibC} (fs : gmap string string)
    (path content : string) (m : Model) :
  ¬ at_line_start content →
  Parser (<[path := content +:+ nl]> fs) m = Parser (<[path := content]> fs) m.
Proof.
  intros Hn. unfold Parser. destruct (decide _); [|done].
  destruct (decide (filename_ m = path)) as [->|Hne].
  - rewrite !lookup_insert_eq. unfold nl.
    by rewrite getlines_final_newline.
  - by rewrite !lookup_insert_ne.
Qed.

Lemma X16_final_newline_witness :
  ¬ at_line_start "v 1 2 3"
  ∧ load ("v 1 2 3" +:+ nl) = load "v 1 2 3".
Proof.
  assert (¬ at_line_start "v 1 2 3") as Hn.
  { intros [?|[s' Hs]]; [done|].
    destruct s' as [|? [|? [|? [|? [|? [|? [|? [|? ?]]]]]]]]; discriminate. }
  split; [exact Hn|].
  exact (X16_final_newline_optional (libc := decimal_libc) ∅ "m.obj"
           "v 1 2 3" (SetFileName "m.obj" initial_model) Hn).
Defined.
